(** * Breast Cancer ML Project: a model of the notebook's pipeline

    The notebook [Breast_Cancer_ML_Project.ipynb] is a linear script: it
    loads a table, splits it, standardizes the features, fits three
    classifiers and selects the most accurate one.  The cells are embedded
    here as functions; the calls into pandas, seaborn and scikit-learn are
    embedded by the behaviour these libraries document, and the learning
    algorithms themselves stay abstract behind an interface.

    Numbers: feature values are floating point in the notebook and real
    numbers ([R]) here; accuracies are quotients of two counts and are
    rationals ([Q]) here. *)

From Stdlib Require Import String List Bool Arith ZArith QArith Qround.
From Stdlib Require Import Reals Lra Lia Permutation.
Import ListNotations.

Local Close Scope Q_scope.
Local Open Scope string_scope.
Local Open Scope list_scope.

(** ** Exceptions and results *)

(** A Python exception: its class and its message. *)
Inductive exn : Type :=
| Exn (cls : string) (msg : string).

Definition ValueError (msg : string) : exn := Exn "ValueError" msg.
Definition TypeError (msg : string) : exn := Exn "TypeError" msg.
Definition KeyError (msg : string) : exn := Exn "KeyError" msg.

(** The outcome of a call: a value, or a raised exception. *)
Inductive result (A : Type) : Type :=
| Ok (a : A)
| Raise (e : exn).

Arguments Ok {A} a.
Arguments Raise {A} e.

Definition rbind {A B : Type} (r : result A) (k : A -> result B) : result B :=
  match r with
  | Ok a => k a
  | Raise e => Raise e
  end.

Declare Scope result_scope.
Delimit Scope result_scope with result.
Notation "x <- r ;; k" := (rbind r (fun x => k))
  (at level 100, r at next level, right associativity) : result_scope.
Notation "' p <- r ;; k" := (rbind r (fun p => k))
  (at level 100, p pattern, r at next level, right associativity) : result_scope.

(** ** Python dictionaries

    A [dict] keeps its keys in insertion order; assigning to a key that is
    present keeps the key's position.  The same structure serves for the
    ordered columns of a pandas DataFrame. *)
Module PyDict.
Section Dict.
Context {V : Type}.

Definition dict : Type := list (string * V).

Definition empty : dict := [].

Fixpoint get (d : dict) (k : string) : option V :=
  match d with
  | [] => None
  | (k', v) :: d' => if String.eqb k' k then Some v else get d' k
  end.

(** [d[k] = v] *)
Fixpoint set (d : dict) (k : string) (v : V) : dict :=
  match d with
  | [] => [(k, v)]
  | (k', v') :: d' =>
      if String.eqb k' k then (k', v) :: d' else (k', v') :: set d' k v
  end.

Fixpoint remove (d : dict) (k : string) : dict :=
  match d with
  | [] => []
  | (k', v) :: d' =>
      if String.eqb k' k then remove d' k else (k', v) :: remove d' k
  end.

Definition keys (d : dict) : list string := map fst d.
Definition items (d : dict) : list (string * V) := d.
Definition mem (d : dict) (k : string) : bool :=
  match get d k with Some _ => true | None => false end.
End Dict.
Arguments dict V : clear implicits.
End PyDict.

(** ** The builtin [max(iterable, key=...)]

    CPython keeps the first item and replaces it only when a later item's
    key compares strictly greater ([>]); on an empty iterable it raises
    [ValueError].  The key function here is [accuracies.get], whose result
    is a float or [None]; ordering [None] against a float is a
    [TypeError]. *)

Definition Qlt_bool (a b : Q) : bool := negb (Qle_bool b a).

(** [val > maxval] on the results of [dict.get]. *)
Definition py_gt (val maxval : option Q) : result bool :=
  match val, maxval with
  | Some a, Some b => Ok (Qlt_bool b a)
  | _, _ => Raise (TypeError "'>' not supported between instances")
  end.

Fixpoint max_loop (key : string -> option Q) (it : list string)
  (maxitem : string) (maxval : option Q) : result string :=
  match it with
  | [] => Ok maxitem
  | item :: rest =>
      let val := key item in
      match py_gt val maxval with
      | Raise e => Raise e
      | Ok true => max_loop key rest item val
      | Ok false => max_loop key rest maxitem maxval
      end
  end.

Definition py_max (it : list string) (key : string -> option Q) : result string :=
  match it with
  | [] => Raise (ValueError "max() arg is an empty sequence")
  | item :: rest => max_loop key rest item (key item)
  end.

(** [d[k]]: a missing key raises [KeyError]. *)
Definition py_getitem {V : Type} (d : PyDict.dict V) (k : string) : result V :=
  match PyDict.get d k with
  | Some v => Ok v
  | None => Raise (KeyError k)
  end.

(** ** Cell 9: model selection

<<
    best_model_name = max(accuracies, key=accuracies.get)
    best_model_accuracy = accuracies[best_model_name]
>> *)
Definition select_best (accuracies : PyDict.dict Q) : result (string * Q) :=
  (best_model_name <- py_max (PyDict.keys accuracies) (PyDict.get accuracies) ;;
   best_model_accuracy <- py_getitem accuracies best_model_name ;;
   Ok (best_model_name, best_model_accuracy))%result.

(** The three names under which cell 7 registers its models, in the order
    of the [models] literal. *)
Definition RF_name : string := "Random Forest".
Definition LR_name : string := "Logistic Regression".
Definition SVM_name : string := "Support Vector Machine".

Definition model_names : list string := [RF_name; LR_name; SVM_name].

(** The [accuracies] dict after the loop of cell 7 has recorded [a1], [a2]
    and [a3] for the three models in turn. *)
Definition recorded (a1 a2 a3 : Q) : PyDict.dict Q :=
  PyDict.set (PyDict.set (PyDict.set PyDict.empty RF_name a1) LR_name a2) SVM_name a3.

(** ** Tables

    A numeric array is kept column by column, one [list R] per feature.  A
    pandas column ([series]) holds floats or integers; a DataFrame is the
    ordered dictionary of its columns. *)

Definition column : Type := list R.
Definition matrix : Type := list column.

Inductive series : Type :=
| FloatSeries (values : list R)
| IntSeries (values : list Z).

Definition series_length (s : series) : nat :=
  match s with
  | FloatSeries v => length v
  | IntSeries v => length v
  end.

Definition DataFrame : Type := PyDict.dict series.

(** Number of rows: the length of the columns (of the first one). *)
Definition n_rows (X : matrix) : nat :=
  match X with
  | [] => 0
  | c :: _ => length c
  end.

Definition df_n_rows (df : DataFrame) : nat :=
  match df with
  | [] => 0
  | (_, s) :: _ => series_length s
  end.

(** The object returned by [load_breast_cancer()], as far as the notebook
    reads it. *)
Record Bunch : Type := {
  data : matrix;
  feature_names : list string;
  target : list Z
}.

(** [pd.DataFrame(values, columns=names)] *)
Definition pd_DataFrame (values : matrix) (names : list string) : result DataFrame :=
  if Nat.eqb (length values) (length names)
  then Ok (combine names (map FloatSeries values))
  else Raise (ValueError "Shape of passed values does not match the columns").

(** [df[name] = values] *)
Definition df_setitem (df : DataFrame) (name : string) (s : series) : result DataFrame :=
  match df with
  | [] => Ok (PyDict.set df name s)
  | _ :: _ =>
      if Nat.eqb (series_length s) (df_n_rows df)
      then Ok (PyDict.set df name s)
      else Raise (ValueError "Length of values does not match length of index")
  end.

(** [df.drop(columns=[name])] *)
Definition df_drop (df : DataFrame) (name : string) : result DataFrame :=
  if PyDict.mem df name
  then Ok (PyDict.remove df name)
  else Raise (KeyError name).

(** Rows selected by position, in the order of [idx]. *)
Definition take {A : Type} (d : A) (idx : list nat) (l : list A) : list A :=
  map (fun i => nth i l d) idx.

Definition series_take (idx : list nat) (s : series) : series :=
  match s with
  | FloatSeries v => FloatSeries (take 0%R idx v)
  | IntSeries v => IntSeries (take 0%Z idx v)
  end.

Definition df_take (idx : list nat) (df : DataFrame) : DataFrame :=
  map (fun kv => (fst kv, series_take idx (snd kv))) df.



(** The float array scikit-learn makes of a table. *)
Definition series_to_float (s : series) : column :=
  match s with
  | FloatSeries v => v
  | IntSeries v => map IZR v
  end.

Definition to_numpy (df : DataFrame) : matrix := map (fun kv => series_to_float (snd kv)) df.

(** Class labels of a target column. *)
Definition as_labels (s : series) : result (list Z) :=
  match s with
  | IntSeries v => Ok v
  | FloatSeries _ => Raise (ValueError "Unknown label type: continuous")
  end.

(** ** Cell 1: loading

<<
    data = load_breast_cancer()
    df = pd.DataFrame(data.data, columns=data.feature_names)
    df["target"] = data.target
>> *)
Definition cell1_load (b : Bunch) : result DataFrame :=
  (df <- pd_DataFrame (data b) (feature_names b) ;;
   df_setitem df "target" (IntSeries (target b)))%result.

(** ** Cell 3: the pairwise plot and the heatmap

<<
    sns.pairplot(df, vars=df.columns[:5], hue="target", diag_kind="kde")
    sns.heatmap(df.corr(), annot=True, fmt=".2f", cmap="coolwarm")
>> *)
Record PairPlot : Type := {
  pp_vars : list string;
  pp_hue : string;
  pp_diag_kind : string
}.

Definition cell3_pairplot (df : DataFrame) : PairPlot :=
  {| pp_vars := firstn 5 (PyDict.keys df);
     pp_hue := "target";
     pp_diag_kind := "kde" |}.

(** The columns a pair plot reads: the grid variables and the hue. *)
Definition pairplot_columns (p : PairPlot) : list string := pp_vars p ++ [pp_hue p].

(** Whether a name occurs twice in a list of column names. *)
Fixpoint has_duplicates (l : list string) : bool :=
  match l with
  | [] => false
  | x :: l' => existsb (String.eqb x) l' || has_duplicates l'
  end.

(** What [sns.pairplot] refuses.  seaborn is not in the repository; to
    find the numeric columns it looks every column of the table up by its
    name, and for a name that occurs twice the lookup yields a table
    instead of a column, on which the test of the column's kind raises
    [ValueError]. *)
Definition sns_pairplot (df : DataFrame) (p : PairPlot) : result unit :=
  if has_duplicates (PyDict.keys df)
  then Raise (ValueError "The truth value of a Series is ambiguous")
  else Ok tt.

Definition cell3_heatmap (df : DataFrame) : list string := PyDict.keys df.

(** ** Estimators

    A model is a class name with the keyword arguments of its
    constructor call; every keyword the notebook passes is an integer. *)
Inductive estimator_class : Type :=
| RandomForestClassifier
| LogisticRegression
| SVC.

Record estimator : Type := {
  est_class : estimator_class;
  est_kwargs : PyDict.dict Z
}.

(** Cell 7, the [models] literal. *)
Definition models : PyDict.dict estimator :=
  [ (RF_name, {| est_class := RandomForestClassifier;
                 est_kwargs := [("random_state", 42%Z)] |});
    (LR_name, {| est_class := LogisticRegression;
                 est_kwargs := [("max_iter", 1000%Z); ("random_state", 42%Z)] |});
    (SVM_name, {| est_class := SVC;
                  est_kwargs := [("random_state", 42%Z)] |}) ].

(** Integer defaults of the constructors, as scikit-learn documents them
    (the table is the library's, not the notebook's): the parameters that
    take an integer by default.  [random_state] defaults to [None] in all
    three classes and so has no entry. *)
Definition library_default (c : estimator_class) (param : string) : option Z :=
  match c with
  | RandomForestClassifier =>
      if String.eqb param "n_estimators" then Some 100%Z
      else if String.eqb param "min_samples_split" then Some 2%Z
      else if String.eqb param "min_samples_leaf" then Some 1%Z
      else if String.eqb param "verbose" then Some 0%Z
      else None
  | LogisticRegression =>
      if String.eqb param "max_iter" then Some 100%Z
      else if String.eqb param "verbose" then Some 0%Z
      else None
  | SVC =>
      if String.eqb param "degree" then Some 3%Z
      else if String.eqb param "cache_size" then Some 200%Z
      else if String.eqb param "max_iter" then Some (-1)%Z
      else None
  end.

(** A keyword argument that restates the library default. *)
Definition is_default (c : estimator_class) (kv : string * Z) : bool :=
  match library_default c (fst kv) with
  | Some d => Z.eqb d (snd kv)
  | None => false
  end.

(** ** The library behind the calls

    The learning algorithms and the pseudo-random generator are not part
    of the notebook.  They are taken as an interface: a generator state
    made from a seed, the permutation it draws, and [fit] and [predict]
    for the three classes.  [fit] receives the generator it draws from. *)
Class Sklearn : Type := {
  rng : Type;
  RandomState : Z -> rng;
  rng_permutation : rng -> nat -> list nat;
  rng_permutation_spec : forall r n, Permutation (rng_permutation r n) (seq 0 n);
  fitted : Type;
  est_fit : estimator -> rng -> matrix -> list Z -> result fitted;
  est_predict : fitted -> matrix -> result (list Z)
}.

(** ** [StandardScaler]

    The class is scikit-learn's; the notebook only calls it, with the
    default [with_mean=True, with_std=True]. *)

Definition Rsum (l : list R) : R := fold_right Rplus 0%R l.

Definition mean (c : column) : R := (Rsum c / INR (length c))%R.

(** The population variance (divisor [n]) and standard deviation. *)
Definition var (c : column) : R :=
  mean (map (fun x => (x - mean c) * (x - mean c))%R c).

Definition std (c : column) : R := sqrt (var c).

(** [np.finfo(np.float64).eps] and the largest finite float. *)
Definition float_eps : R := (/ 2 ^ 52)%R.

Definition float_max : R := ((2 - float_eps) * 2 ^ 1023)%R.

(** scikit-learn's [_is_constant_feature(var, mean, n_samples)]: a feature
    counts as constant when its variance is within the error bound of its
    own computation, [var <= n_samples * eps * var + (n_samples * mean *
    eps) ** 2].  A variance that has overflowed meets the comparison too:
    that is the case when the sum of the squared deviations,
    [n_samples * var], is beyond the largest float. *)
Definition is_constant_feature (v m : R) (n : nat) : Prop :=
  (v <= INR n * float_eps * v
        + (INR n * m * float_eps) * (INR n * m * float_eps))%R \/
  (float_max < INR n * v)%R.


(** The scale of a feature, from its variance, its mean and the number of
    rows.  This follows scikit-learn rather than the spec: "Generally this
    is calculated using [np.sqrt(var_)].  If a variance is zero, we can't
    achieve unit variance, and the data is left as-is, giving a scaling
    factor of 1" (the library's [_handle_zeros_in_scale], applied with the
    mask of [_is_constant_feature]).  The comparisons are those of the
    library, on real numbers: rounding is not modelled. *)
Definition handle_zeros_in_scale (v m : R) (n : nat) : R :=
  if Rle_dec v (INR n * float_eps * v
                + (INR n * m * float_eps) * (INR n * m * float_eps))%R
  then 1%R
  else if Rlt_dec float_max (INR n * v)%R then 1%R
  else sqrt v.

Record ScalerParams : Type := {
  mean_ : list R;
  var_ : list R;
  scale_ : list R
}.

(** A scaler object: unfitted ([None]) or holding its fitted parameters. *)
Definition StandardScaler : Type := option ScalerParams.

Definition StandardScaler_new : StandardScaler := None.

(** Modelled from the spec: [StandardScaler.fit] is scikit-learn's and is
    not in the repository.  The spec has the scaler state as the per-feature
    mean and standard deviation of the data it is fitted on; an array
    without features or without rows is refused, as the library does. *)
Definition scaler_fit (X : matrix) : result ScalerParams :=
  if Nat.eqb (length X) 0
  then Raise (ValueError "Found array with 0 feature(s)")
  else if Nat.eqb (n_rows X) 0
  then Raise (ValueError "Found array with 0 sample(s)")
  else Ok {| mean_ := map mean X;
             var_ := map var X;
             scale_ :=
               map (fun c => handle_zeros_in_scale (var c) (mean c) (n_rows X))
                 X |}.

Definition scale_column (m s : R) (c : column) : column :=
  map (fun x => ((x - m) / s)%R) c.

Fixpoint scale_columns (ms ss : list R) (X : matrix) : matrix :=
  match ms, ss, X with
  | m :: ms', s :: ss', c :: X' => scale_column m s c :: scale_columns ms' ss' X'
  | _, _, _ => []
  end.

(** Modelled from the spec: [StandardScaler.transform] is scikit-learn's
    and is not in the repository.  The spec has it subtract the fitted mean
    and divide by the fitted scale, per feature, without fitting again; an
    unfitted scaler and an array of another width are refused, as the
    library does. *)
Definition scaler_transform (sc : StandardScaler) (X : matrix) : result matrix :=
  match sc with
  | None => Raise (Exn "NotFittedError" "This StandardScaler instance is not fitted yet")
  | Some p =>
      if Nat.eqb (length X) (length (mean_ p))
      then Ok (scale_columns (mean_ p) (scale_ p) X)
      else Raise (ValueError "X has a different number of features than StandardScaler expects")
  end.

(** [fit_transform] is [fit] followed by [transform]; it returns the
    object's new state along with the scaled data. *)
Definition scaler_fit_transform (sc : StandardScaler) (X : matrix)
  : result (StandardScaler * matrix) :=
  (p <- scaler_fit X ;;
   Xs <- scaler_transform (Some p) X ;;
   Ok (Some p, Xs))%result.

(** ** [accuracy_score] *)

(** The indicator [y_true == y_pred], row by row. *)
Definition score (y_true y_pred : list Z) : list bool :=
  map (fun tp => Z.eqb (fst tp) (snd tp)) (combine y_true y_pred).

Definition count_true (l : list bool) : nat := length (filter (fun b => b) l).

(** Modelled from the spec: [accuracy_score] is scikit-learn's and is not
    in the repository.  The spec has it as correct predictions over total
    test rows; it is computed as the library does, as the mean of the
    indicator vector, and arrays of different lengths are refused. *)
Definition accuracy_score (y_true y_pred : list Z) : result Q :=
  if Nat.eqb (length y_true) (length y_pred)
  then Ok (inject_Z (Z.of_nat (count_true (score y_true y_pred)))
           / inject_Z (Z.of_nat (length (score y_true y_pred))))%Q
  else Raise (ValueError "Found input variables with inconsistent numbers of samples").

(** ** What a run leaves behind

    Plots, printed lines and calls into the library, in the order they
    happen.  A call of [fit] or [predict] is recorded with the exception
    it raised, if any. *)
Inductive event : Type :=
| EvPrintMissing (cols : list string)
| EvPrintDescribe (cols : list string)
| EvPairplot (p : PairPlot)
| EvHeatmap (cols : list string)
| EvPrint (text : string)
| EvScalerFit (X : matrix)
| EvScalerTransform (X : matrix)
| EvModelFit (name : string) (raised : option exn)
| EvModelPredict (name : string) (raised : option exn)
| EvPrintAccuracy (name : string) (accuracy : Q)
| EvPrintBest (name : string) (accuracy : Q).

(** A notebook computation: it extends the log and returns or raises. *)
Definition M (A : Type) : Type := list event -> list event * result A.

Definition ret {A : Type} (a : A) : M A := fun log => (log, Ok a).

Definition bind {A B : Type} (c : M A) (k : A -> M B) : M B :=
  fun log =>
    match c log with
    | (log', Ok a) => k a log'
    | (log', Raise e) => (log', Raise e)
    end.

Definition emit (e : event) : M unit := fun log => (log ++ [e], Ok tt).

Definition lift {A : Type} (r : result A) : M A := fun log => (log, r).

Definition raised {A : Type} (r : result A) : option exn :=
  match r with
  | Ok _ => None
  | Raise e => Some e
  end.

Declare Scope nb_scope.
Delimit Scope nb_scope with nb.
Notation "x <- c ;; k" := (bind c (fun x => k))
  (at level 100, c at next level, right associativity) : nb_scope.
Notation "' p <- c ;; k" := (bind c (fun p => k))
  (at level 100, p pattern, c at next level, right associativity) : nb_scope.
Notation "c ;;; k" := (bind c (fun _ => k))
  (at level 100, right associativity) : nb_scope.

(** ** The pipeline over a library *)
Section Pipeline.
Context {L : Sklearn}.

(** [check_random_state]: an integer seed makes a fresh generator;
    [None] stands for numpy's global generator. *)
Definition check_random_state (seed : option Z) (global : rng) : rng :=
  match seed with
  | Some s => RandomState s
  | None => global
  end.

(** *** [train_test_split] *)

(** Modelled from the spec: the size rule of [train_test_split] is
    scikit-learn's and is not in the repository.  The spec has a test part
    of 20%, 114 rows of 569, and a train part of the rest; as in the
    library, for a float [test_size] strictly between 0 and 1 the test
    part has [ceil(test_size * n_samples)] rows, and an empty train part is
    refused.  [0.2] is taken as the rational 1/5. *)
Definition validate_shuffle_split (n_samples : nat) (test_size : Q)
  : result (nat * nat) :=
  if negb (Qlt_bool 0 test_size && Qlt_bool test_size 1)
  then Raise (ValueError "test_size should be a float in the (0, 1) range")
  else
    let n_test := Z.to_nat (Qceiling (test_size * inject_Z (Z.of_nat n_samples))) in
    let n_train := n_samples - n_test in
    if Nat.eqb n_train 0
    then Raise (ValueError "the resulting train set will be empty")
    else Ok (n_train, n_test).

(** Modelled from the spec: the shuffling of [train_test_split] is
    scikit-learn's and is not in the repository.  The spec has two
    disjoint parts that cover the rows, fixed by the seed; as in the
    library, the rows are a permutation drawn from the generator, whose
    first [n_test] entries are the test rows and the next [n_train] the
    train rows. *)
Definition shuffle_split (r : rng) (n_samples n_train n_test : nat)
  : list nat * list nat :=
  let permutation := rng_permutation r n_samples in
  let ind_test := firstn n_test permutation in
  let ind_train := firstn n_train (skipn n_test permutation) in
  (ind_train, ind_test).

Definition split_indices (n_samples : nat) (test_size : Q)
  (random_state : option Z) (global : rng) : result (list nat * list nat) :=
  ('(n_train, n_test) <- validate_shuffle_split n_samples test_size ;;
   Ok (shuffle_split (check_random_state random_state global)
         n_samples n_train n_test))%result.

(** Modelled from the spec: [train_test_split] is scikit-learn's and is
    not in the repository.  Features and labels are read at the same row
    indices, which keeps them aligned; inputs of different lengths are
    refused. *)
Definition train_test_split (X : DataFrame) (y : series) (test_size : Q)
  (random_state : option Z) (global : rng)
  : result (DataFrame * DataFrame * series * series) :=
  if negb (Nat.eqb (df_n_rows X) (series_length y))
  then Raise (ValueError "Found input variables with inconsistent numbers of samples")
  else
    ('(train, test) <- split_indices (df_n_rows X) test_size random_state global ;;
     Ok (df_take train X, df_take test X,
         series_take train y, series_take test y))%result.

(** *** Calls on the model objects *)

(** [model.fit(X, y)]: the generator is the one the constructor's
    [random_state] names. *)
Definition model_fit (model : estimator) (global : rng) (X : matrix) (y : series)
  : result fitted :=
  (labels <- as_labels y ;;
   est_fit model
     (check_random_state (PyDict.get (est_kwargs model) "random_state") global)
     X labels)%result.

Definition call_fit (name : string) (model : estimator) (global : rng)
  (X : matrix) (y : series) : M fitted :=
  fun log =>
    let r := model_fit model global X y in
    (log ++ [EvModelFit name (raised r)], r).

Definition call_predict (name : string) (f : fitted) (X : matrix) : M (list Z) :=
  fun log =>
    let r := est_predict f X in
    (log ++ [EvModelPredict name (raised r)], r).

Definition call_scaler_fit_transform (sc : StandardScaler) (X : matrix)
  : M (StandardScaler * matrix) :=
  (emit (EvScalerFit X) ;;;
   emit (EvScalerTransform X) ;;;
   lift (scaler_fit_transform sc X))%nb.

Definition call_scaler_transform (sc : StandardScaler) (X : matrix) : M matrix :=
  (emit (EvScalerTransform X) ;;;
   lift (scaler_transform sc X))%nb.

(** *** Cell 3: the reports

    The pair plot is drawn only if seaborn accepts the table; when it
    raises, the heatmap is not reached. *)
Definition cell3_eda (df : DataFrame) : M unit :=
  (emit (EvPrintMissing (PyDict.keys df)) ;;;
   emit (EvPrintDescribe (PyDict.keys df)) ;;;
   lift (sns_pairplot df (cell3_pairplot df)) ;;;
   emit (EvPairplot (cell3_pairplot df)) ;;;
   emit (EvHeatmap (cell3_heatmap df)))%nb.

(** *** Cell 5: split and standardize

<<
  X = df.drop(columns=["target"])
  y = df["target"]
  X_train, X_test, y_train, y_test =
      train_test_split(X, y, test_size=0.2, random_state=42)
  scaler = StandardScaler()
  X_train_scaled = scaler.fit_transform(X_train)
  X_test_scaled = scaler.transform(X_test)
>> *)
Record Prepared : Type := {
  X_train : DataFrame;
  X_test : DataFrame;
  y_train : series;
  y_test : series;
  scaler : StandardScaler;
  X_train_scaled : matrix;
  X_test_scaled : matrix
}.

Definition cell5_prepare (global : rng) (df : DataFrame) : M Prepared :=
  (X <- lift (df_drop df "target") ;;
   y <- lift (py_getitem df "target") ;;
   '(X_train, X_test, y_train, y_test) <-
      lift (train_test_split X y (2 # 10) (Some 42%Z) global) ;;
   let scaler := StandardScaler_new in
   '(scaler, X_train_scaled) <- call_scaler_fit_transform scaler (to_numpy X_train) ;;
   X_test_scaled <- call_scaler_transform scaler (to_numpy X_test) ;;
   emit (EvPrint "Feature engineering complete.") ;;;
   ret {| X_train := X_train; X_test := X_test;
          y_train := y_train; y_test := y_test;
          scaler := scaler;
          X_train_scaled := X_train_scaled;
          X_test_scaled := X_test_scaled |})%nb.

(** *** Cell 7: the training loop

<<
  accuracies = {}
  for name, model in models.items():
      model.fit(X_train_scaled, y_train)
      predictions = model.predict(X_test_scaled)
      accuracy = accuracy_score(y_test, predictions)
      accuracies[name] = accuracy
      print(f"{name} Accuracy: {accuracy:.4f}")
>> *)
Definition score_model (y_test : series) (predictions : list Z) : result Q :=
  (labels <- as_labels y_test ;;
   accuracy_score labels predictions)%result.

Fixpoint train_loop (global : rng) (p : Prepared)
  (items : list (string * estimator)) (accuracies : PyDict.dict Q)
  : M (PyDict.dict Q) :=
  match items with
  | [] => ret accuracies
  | (name, model) :: rest =>
      (f <- call_fit name model global (X_train_scaled p) (y_train p) ;;
       predictions <- call_predict name f (X_test_scaled p) ;;
       accuracy <- lift (score_model (y_test p) predictions) ;;
       let accuracies := PyDict.set accuracies name accuracy in
       emit (EvPrintAccuracy name accuracy) ;;;
       train_loop global p rest accuracies)%nb
  end.

Definition cell7_train (global : rng) (p : Prepared) : M (PyDict.dict Q) :=
  train_loop global p (PyDict.items models) PyDict.empty.

(** *** Cell 9: selection and the final line *)
Definition cell9_select (accuracies : PyDict.dict Q) : M (string * Q) :=
  ('(best_model_name, best_model_accuracy) <- lift (select_best accuracies) ;;
   emit (EvPrintBest best_model_name best_model_accuracy) ;;;
   ret (best_model_name, best_model_accuracy))%nb.

(** *** The run: the cells in order, on an empty log

    [global] is the state of numpy's global generator when the run
    starts. *)
Record Outputs : Type := {
  prepared : Prepared;
  accuracies : PyDict.dict Q;
  best_model_name : string;
  best_model_accuracy : Q
}.

Definition notebook (global : rng) (b : Bunch) : M Outputs :=
  (df <- lift (cell1_load b) ;;
   cell3_eda df ;;;
   p <- cell5_prepare global df ;;
   accuracies <- cell7_train global p ;;
   '(best_model_name, best_model_accuracy) <- cell9_select accuracies ;;
   ret {| prepared := p;
          accuracies := accuracies;
          best_model_name := best_model_name;
          best_model_accuracy := best_model_accuracy |})%nb.

Definition run (global : rng) (b : Bunch) : list event * result Outputs :=
  notebook global b [].

End Pipeline.

(** ** A small library instance

    A stand-in for the library, used to run the model on concrete tables:
    the permutation reverses the row order, a fitted "model" remembers the
    first training label, and prediction repeats it for every row.  The
    logistic regression of this instance can be told to fail. *)
Definition toy_fit (fail_lr : bool) (e : estimator) (r : Z) (X : matrix) (y : list Z)
  : result Z :=
  match est_class e with
  | LogisticRegression =>
      if fail_lr then Raise (ValueError "Input X contains NaN")
      else Ok (hd 0%Z y)
  | _ => Ok (hd 0%Z y)
  end.

Definition toy_predict (f : Z) (X : matrix) : result (list Z) :=
  Ok (repeat f (n_rows X)).

Definition ToyLibrary (fail_lr : bool) : Sklearn :=
  {| rng := Z;
     RandomState := fun s => s;
     rng_permutation := fun _ n => rev (seq 0 n);
     rng_permutation_spec :=
       fun _ n => Permutation_sym (Permutation_rev (seq 0 n));
     fitted := Z;
     est_fit := toy_fit fail_lr;
     est_predict := toy_predict |}.

(** Small tables to run the model on: seven rows of one feature, and the
    same table with other values in the rows that the split of the
    stand-in library sends to the test part (the first two of the reversed
    order, rows 6 and 5). *)
Definition toy_bunch : Bunch :=
  {| data := [[0; 2; 4; 6; 8; 1; 3]%R];
     feature_names := ["mean radius"];
     target := [0; 1; 0; 1; 1; 0; 1]%Z |}.

Definition toy_bunch' : Bunch :=
  {| data := [[0; 2; 4; 6; 8; 9; 7]%R];
     feature_names := ["mean radius"];
     target := [0; 1; 0; 1; 1; 1; 0]%Z |}.

(** A table whose only feature is constant. *)
Definition const_bunch : Bunch :=
  {| data := [[1; 1; 1; 1; 1; 1; 1]%R];
     feature_names := ["mean radius"];
     target := [0; 1; 0; 1; 1; 0; 1]%Z |}.

(** ** Notions used to state the properties *)

(** The number of rows at which two label vectors agree. *)
Definition n_correct (y_true y_pred : list Z) : nat :=
  length (filter (fun i => Z.eqb (nth i y_true 0%Z) (nth i y_pred 0%Z))
            (seq 0 (length y_true))).

(** The calls on the scaler object among the events of a run. *)
Definition is_scaler_event (e : event) : bool :=
  match e with
  | EvScalerFit _ | EvScalerTransform _ => true
  | _ => false
  end.

(** The calls of [fit] on a model, of [predict], and the lines printed
    about a model. *)
Definition is_model_event (e : event) : bool :=
  match e with
  | EvModelFit _ _ | EvModelPredict _ _ | EvPrintAccuracy _ _ => true
  | _ => false
  end.

(** The exception a recorded [fit] or [predict] call raised. *)
Definition failed_call (e : event) : option exn :=
  match e with
  | EvModelFit _ (Some x) | EvModelPredict _ (Some x) => Some x
  | _ => None
  end.

Definition is_best_event (e : event) : bool :=
  match e with
  | EvPrintBest _ _ => true
  | _ => false
  end.

(** Events among which no recorded call failed, and events among which
    the final line is absent. *)
Definition no_failure (ext : list event) : Prop :=
  Forall (fun e => failed_call e = None) ext.

Definition no_best (ext : list event) : Prop :=
  Forall (fun e => is_best_event e = false) ext.

(** How a computation may end, given the events [ext] it added: normally,
    with no failed call among them; or raising [x], the final line not
    printed, and then either no call failed (the exception came from
    elsewhere) or the one failed call is the last event and raised [x]. *)
Definition ends_well {A : Type} (ext : list event) (r : result A) : Prop :=
  match r with
  | Ok _ => no_failure ext
  | Raise x =>
      no_best ext /\
      (no_failure ext \/
       exists ext0 ev, ext = ext0 ++ [ev] /\ no_failure ext0 /\ failed_call ev = Some x)
  end.

(** A step of the run that may be followed by further steps, and the run
    as a whole. *)
Definition quiet {A : Type} (c : M A) : Prop :=
  forall log log' r, c log = (log', r) ->
    exists ext, log' = log ++ ext /\ no_best ext /\ ends_well ext r.

Definition aborting {A : Type} (c : M A) : Prop :=
  forall log log' r, c log = (log', r) ->
    exists ext, log' = log ++ ext /\ ends_well ext r.

(** The keyword arguments of a model that do not restate a default. *)
Definition non_default_kwargs (e : estimator) : list (string * Z) :=
  filter (fun kv => negb (is_default (est_class e) kv)) (est_kwargs e).

(** The feature names of the bundled data set, and a table of three rows
    under them. *)
Definition wdbc_feature_names : list string :=
  ["mean radius"; "mean texture"; "mean perimeter"; "mean area";
   "mean smoothness"; "mean compactness"; "mean concavity";
   "mean concave points"; "mean symmetry"; "mean fractal dimension";
   "radius error"; "texture error"; "perimeter error"; "area error";
   "smoothness error"; "compactness error"; "concavity error";
   "concave points error"; "symmetry error"; "fractal dimension error";
   "worst radius"; "worst texture"; "worst perimeter"; "worst area";
   "worst smoothness"; "worst compactness"; "worst concavity";
   "worst concave points"; "worst symmetry"; "worst fractal dimension"].

Definition wide_bunch : Bunch :=
  {| data := repeat [0; 1; 2]%R 30;
     feature_names := wdbc_feature_names;
     target := [0; 1; 0]%Z |}.

Section LoopResult.
Context {L : Sklearn}.

(** The accuracy one pass of the loop body computes for a model: the
    model is fitted on the scaled train data, predicts on the scaled test
    data, and is scored against the test labels. *)
Definition model_accuracy (global : rng) (p : Prepared) (model : estimator)
  (a : Q) : Prop :=
  exists f predictions,
    model_fit model global (X_train_scaled p) (y_train p) = Ok f /\
    est_predict f (X_test_scaled p) = Ok predictions /\
    score_model (y_test p) predictions = Ok a.

(** The dict a loop over [items] ends with when every pass succeeds. *)
Fixpoint loop_result (global : rng) (p : Prepared)
  (items : list (string * estimator)) (acc acc' : PyDict.dict Q) : Prop :=
  match items with
  | [] => acc' = acc
  | (name, model) :: rest =>
      exists a, model_accuracy global p model a /\
                loop_result global p rest (PyDict.set acc name a) acc'
  end.
End LoopResult.

(** ** Notions used to state further properties *)

(** What one pass of the loop body logs when it runs to its end. *)
Definition pass_events (na : string * Q) : list event :=
  [EvModelFit (fst na) None; EvModelPredict (fst na) None;
   EvPrintAccuracy (fst na) (snd na)].

(** What cell 3 logs when it runs to its end. *)
Definition eda_events (df : DataFrame) : list event :=
  [EvPrintMissing (PyDict.keys df); EvPrintDescribe (PyDict.keys df);
   EvPairplot (cell3_pairplot df); EvHeatmap (cell3_heatmap df)].

(** What cell 5 logs when it runs to its end. *)
Definition prepare_events (p : Prepared) : list event :=
  [EvScalerFit (to_numpy (X_train p));
   EvScalerTransform (to_numpy (X_train p));
   EvScalerTransform (to_numpy (X_test p));
   EvPrint "Feature engineering complete."].

(** A data set of [n] rows: as many feature names as feature columns, at
    least one feature, every column and the target of [n] entries, and no
    feature called [target]. *)
Definition well_formed (b : Bunch) (n : nat) : Prop :=
  length (data b) = length (feature_names b) /\
  data b <> [] /\
  Forall (fun c => length c = n) (data b) /\
  length (target b) = n /\
  ~ In "target" (feature_names b).


(** A prepared state to run the loop on, and a table of one row. *)
Definition toy_prepared : Prepared :=
  {| X_train := [("mean radius", FloatSeries [8; 6]%R)];
     X_test := [("mean radius", FloatSeries [3]%R)];
     y_train := IntSeries [1; 0]%Z;
     y_test := IntSeries [1]%Z;
     scaler := None;
     X_train_scaled := [[1; -1]%R];
     X_test_scaled := [[-4]%R] |}.

Definition one_row_bunch : Bunch :=
  {| data := [[5]%R];
     feature_names := ["mean radius"];
     target := [1]%Z |}.

(** ** The correlation matrix of the heatmap

    [df.corr()] in cell 3. *)

Definition covariance (x y : column) : R :=
  mean (map (fun xy => (fst xy - mean x) * (snd xy - mean y))%R (combine x y)).

(** Modelled from the spec: [DataFrame.corr] is pandas' and is not in the
    repository.  The spec has the heatmap show the pairwise
    linear-correlation coefficients of the columns: the covariance of two
    columns over the product of their standard deviations.  As in pandas,
    the coefficient is undefined (NaN, here [None]) when one of the two
    columns is constant. *)
Definition pearson (x y : column) : option R :=
  if Req_dec_T (var x * var y) 0%R then None
  else Some (covariance x y / (std x * std y))%R.

(** One row of coefficients per column of the table, integer columns read
    as floats. *)
Definition df_corr (df : DataFrame) : list (list (option R)) :=
  map (fun a =>
         map (fun b => pearson (series_to_float (snd a)) (series_to_float (snd b)))
           df)
    df.

(** The entry of a matrix at row [i] and column [j]. *)
Definition entry {A : Type} (m : list (list A)) (i j : nat) : option A :=
  match nth_error m i with
  | Some row => nth_error row j
  | None => None
  end.

(** * Properties *)

Lemma Qlt_bool_true (a b : Q) : Qlt_bool a b = true -> (a < b)%Q.
Proof.
  unfold Qlt_bool. intros H. apply negb_true_iff in H.
  apply Qnot_le_lt. intros Hle. apply Qle_bool_iff in Hle. congruence.
Qed.

Lemma Qlt_bool_false (a b : Q) : Qlt_bool a b = false -> (b <= a)%Q.
Proof.
  unfold Qlt_bool. intros H. apply negb_false_iff in H.
  now apply Qle_bool_iff.
Qed.

(** C1. Selection over the three recorded accuracies returns a name whose
    recorded accuracy is at least each of the three values; a model is
    passed over only for a strictly greater later value, so among equal
    maxima the first in the order Random Forest, Logistic Regression,
    Support Vector Machine wins; the reported accuracy is the value
    recorded under the returned name. *)
Theorem C1_select_best_first_maximum (a1 a2 a3 : Q) :
  exists name acc,
    select_best (recorded a1 a2 a3) = Ok (name, acc) /\
    PyDict.get (recorded a1 a2 a3) name = Some acc /\
    (a1 <= acc /\ a2 <= acc /\ a3 <= acc)%Q /\
    ((name = RF_name /\ acc = a1) \/
     (name = LR_name /\ acc = a2 /\ (a1 < a2)%Q) \/
     (name = SVM_name /\ acc = a3 /\ (a1 < a3)%Q /\ (a2 < a3)%Q)).
Proof.
  unfold select_best, recorded. cbn.
  destruct (Qlt_bool a1 a2) eqn:H12.
  - destruct (Qlt_bool a2 a3) eqn:H23; cbn.
    + apply Qlt_bool_true in H12, H23.
      exists SVM_name, a3. repeat split; auto using Qle_refl, Qlt_le_weak.
      * apply Qlt_le_weak. eapply Qlt_trans; eauto.
      * right; right. repeat split; auto. eapply Qlt_trans; eauto.
    + apply Qlt_bool_true in H12. apply Qlt_bool_false in H23.
      exists LR_name, a2. repeat split; auto using Qle_refl, Qlt_le_weak.
  - destruct (Qlt_bool a1 a3) eqn:H13; cbn.
    + apply Qlt_bool_false in H12. apply Qlt_bool_true in H13.
      exists SVM_name, a3. repeat split; auto using Qle_refl, Qlt_le_weak.
      * eapply Qle_trans; [exact H12 | now apply Qlt_le_weak].
      * right; right. repeat split; auto. eapply Qle_lt_trans; eauto.
    + apply Qlt_bool_false in H12, H13.
      exists RF_name, a1. repeat split; auto using Qle_refl.
Qed.

(** ** The notebook monad *)

Lemma bind_Ok {A B : Type} (c : M A) (k : A -> M B) log log' b :
  bind c k log = (log', Ok b) ->
  exists a log1, c log = (log1, Ok a) /\ k a log1 = (log', Ok b).
Proof.
  unfold bind. destruct (c log) as [log1 [a | e]]; intros H.
  - exists a, log1. auto.
  - discriminate.
Qed.

Lemma lift_Ok {A : Type} (r : result A) log log' a :
  lift r log = (log', Ok a) -> log' = log /\ r = Ok a.
Proof. unfold lift. intros H. inversion H. auto. Qed.

Lemma emit_Ok (e : event) log log' u :
  emit e log = (log', Ok u) -> log' = log ++ [e].
Proof. unfold emit. intros H. inversion H. auto. Qed.

Lemma ret_Ok {A : Type} (a : A) log log' a' :
  ret a log = (log', Ok a') -> log' = log /\ a' = a.
Proof. unfold ret. intros H. inversion H. auto. Qed.

Lemma rbind_Ok {A B : Type} (r : result A) (k : A -> result B) b :
  rbind r k = Ok b -> exists a, r = Ok a /\ k a = Ok b.
Proof.
  destruct r as [a | e]; cbn; intros H; [eauto | discriminate].
Qed.

(** Takes a successful run of a sequence of steps apart, one bind at a
    time. *)
Ltac invert_step H :=
  match type of H with
  | bind _ _ _ = (_, Ok _) =>
      let a := fresh "a" in
      let l := fresh "log" in
      let H1 := fresh "Hstep" in
      apply bind_Ok in H; destruct H as (a & l & H1 & H)
  end.

(** ** The split *)

Lemma take_length {A : Type} (d : A) idx l : length (take d idx l) = length idx.
Proof. unfold take. apply length_map. Qed.


Lemma series_take_length idx s : series_length (series_take idx s) = length idx.
Proof. destruct s; cbn; apply take_length. Qed.


Lemma to_numpy_take_rows idx (X : DataFrame) :
  Forall (fun c => length c = length idx) (to_numpy (df_take idx X)).
Proof.
  unfold to_numpy, df_take. rewrite map_map. apply Forall_forall.
  intros c Hc. apply in_map_iff in Hc. destruct Hc as ([name s] & <- & _).
  cbn. destruct s; cbn; [| rewrite length_map]; apply take_length.
Qed.

Lemma n_rows_Forall (X : matrix) n :
  X <> [] -> Forall (fun c => length c = n) X -> n_rows X = n.
Proof.
  intros Hne Hall. destruct X as [| c X]; [contradiction |].
  exact (Forall_inv Hall).
Qed.



Lemma Qlt_bool_iff (a b : Q) : Qlt_bool a b = true <-> (a < b)%Q.
Proof.
  split; [apply Qlt_bool_true |].
  intros H. destruct (Qlt_bool a b) eqn:E; [reflexivity |].
  apply Qlt_bool_false in E. exfalso. revert E. now apply Qlt_not_le.
Qed.

Section SplitFacts.
Context {L : Sklearn}.

(** A successful size computation: both parts are non-empty and
    together they are all the rows. *)
Lemma validate_shuffle_split_Ok n ts n_train n_test :
  validate_shuffle_split n ts = Ok (n_train, n_test) ->
  (n_train + n_test = n /\ 0 < n_train /\ 0 < n_test)%nat /\
  n_test = Z.to_nat (Qceiling (ts * inject_Z (Z.of_nat n))).
Proof.
  unfold validate_shuffle_split.
  destruct (Qlt_bool 0 ts && Qlt_bool ts 1) eqn:Hts; cbn; [| discriminate].
  apply andb_true_iff in Hts. destruct Hts as [H0 H1].
  apply Qlt_bool_true in H0, H1.
  set (c := Qceiling (ts * inject_Z (Z.of_nat n))).
  destruct (Nat.eqb (n - Z.to_nat c) 0) eqn:E; [discriminate |].
  intros H. inversion H; subst; clear H.
  apply Nat.eqb_neq in E.
  assert (Hn : (0 < n)%nat) by lia.
  assert (Hpos : (0 < c)%Z).
  { assert (Hq : (0 < inject_Z c)%Q).
    { eapply Qlt_le_trans; [| apply Qle_ceiling].
      apply (Qmult_lt_0_compat ts (inject_Z (Z.of_nat n))); [exact H0 |].
      unfold Qlt; cbn. lia. }
    unfold Qlt in Hq; cbn in Hq. lia. }
  repeat split; lia.
Qed.


Lemma shuffle_split_partition r n n_train n_test train test :
  (n_train + n_test = n)%nat ->
  shuffle_split r n n_train n_test = (train, test) ->
  Permutation (train ++ test) (seq 0 n) /\
  length train = n_train /\ length test = n_test.
Proof.
  intros Hsum. unfold shuffle_split. intros H. inversion H; subst; clear H.
  pose proof (rng_permutation_spec r (n_train + n_test)) as Hperm.
  assert (Hlen : length (rng_permutation r (n_train + n_test))
                 = (n_train + n_test)%nat).
  { rewrite (Permutation_length Hperm). apply length_seq. }
  rewrite firstn_all2 by (rewrite length_skipn; lia).
  repeat split.
  - eapply Permutation_trans; [apply Permutation_app_comm |].
    now rewrite firstn_skipn.
  - rewrite length_skipn. lia.
  - rewrite length_firstn. lia.
Qed.

Lemma split_indices_Ok n ts seed global train test :
  split_indices n ts seed global = Ok (train, test) ->
  Permutation (train ++ test) (seq 0 n) /\
  (length train + length test = n /\ 0 < length train /\ 0 < length test)%nat /\
  length test = Z.to_nat (Qceiling (ts * inject_Z (Z.of_nat n))).
Proof.
  unfold split_indices. intros H.
  apply rbind_Ok in H. destruct H as ([n_train n_test] & Hv & H).
  assert (Hs : shuffle_split (check_random_state seed global) n n_train n_test
               = (train, test)) by congruence.
  clear H.
  apply validate_shuffle_split_Ok in Hv. destruct Hv as ((Hsum & Htr & Hte) & Hc).
  apply (shuffle_split_partition _ _ _ _ _ _ Hsum) in Hs.
  destruct Hs as (Hperm & Hl1 & Hl2).
  repeat split; try lia; auto.
Qed.


End SplitFacts.


(** ** Accuracy *)

Lemma score_length y_true y_pred :
  length y_true = length y_pred -> length (score y_true y_pred) = length y_true.
Proof.
  intros H. unfold score. rewrite length_map, length_combine. lia.
Qed.

Lemma count_true_le l : (count_true l <= length l)%nat.
Proof.
  unfold count_true. induction l as [| [] l IH]; cbn; lia.
Qed.

(** The indicator vector counts exactly the rows where the labels agree. *)
Lemma count_true_score y_true y_pred :
  length y_true = length y_pred ->
  count_true (score y_true y_pred) = n_correct y_true y_pred.
Proof.
  unfold count_true, n_correct, score.
  revert y_pred. induction y_true as [| t ts IH]; intros [| p ps] Hlen;
    try discriminate; [reflexivity |].
  cbn [length combine map seq]. rewrite <- seq_shift.
  cbn [filter nth fst snd].
  specialize (IH ps ltac:(cbn in Hlen; lia)).
  rewrite filter_map_swap with (g := S). cbn beta.
  destruct (Z.eqb t p); cbn [length]; rewrite length_map, IH; reflexivity.
Qed.

Lemma fraction_in_unit_interval (c n : nat) :
  (c <= n)%nat -> (0 < n)%nat ->
  (0 <= inject_Z (Z.of_nat c) / inject_Z (Z.of_nat n) <= 1)%Q.
Proof.
  intros Hc Hn.
  assert (Hpos : (0 < inject_Z (Z.of_nat n))%Q) by (unfold Qlt; cbn; lia).
  split.
  - apply Qle_shift_div_l; [exact Hpos |].
    unfold Qle, Qmult, inject_Z; cbn [Qnum Qden Pos.mul]. lia.
  - apply Qle_shift_div_r; [exact Hpos |].
    unfold Qle, Qmult, inject_Z; cbn [Qnum Qden Pos.mul]. lia.
Qed.

(** What [accuracy_score] returns when it returns. *)
Lemma accuracy_score_Ok y_true y_pred a :
  accuracy_score y_true y_pred = Ok a ->
  length y_pred = length y_true /\
  a = (inject_Z (Z.of_nat (n_correct y_true y_pred))
       / inject_Z (Z.of_nat (length y_true)))%Q /\
  (n_correct y_true y_pred <= length y_true)%nat.
Proof.
  unfold accuracy_score.
  destruct (Nat.eqb (length y_true) (length y_pred)) eqn:E; [| discriminate].
  apply Nat.eqb_eq in E. intros H. inversion H; subst; clear H.
  pose proof (count_true_le (score y_true y_pred)) as Hle.
  rewrite (count_true_score _ _ E), (score_length _ _ E) in *.
  repeat split; auto.
Qed.

(** ** Dictionaries *)

Lemma get_set_same {V : Type} (d : PyDict.dict V) k v :
  PyDict.get (PyDict.set d k v) k = Some v.
Proof.
  induction d as [| [k' v'] d IH]; cbn.
  - now rewrite String.eqb_refl.
  - destruct (String.eqb k' k) eqn:E; cbn; rewrite E; auto.
Qed.

Lemma df_setitem_Ok df name s df' :
  df_setitem df name s = Ok df' -> df' = PyDict.set df name s.
Proof.
  unfold df_setitem. destruct df as [| c df0]; [congruence |].
  destruct (Nat.eqb _ _); congruence.
Qed.

Lemma cell1_load_target b df :
  cell1_load b = Ok df -> py_getitem df "target" = Ok (IntSeries (target b)).
Proof.
  unfold cell1_load. intros H. apply rbind_Ok in H. destruct H as (df0 & _ & H).
  apply df_setitem_Ok in H. subst df. unfold py_getitem.
  now rewrite get_set_same.
Qed.

(** ** The scaler calls *)

Lemma scaler_transform_Ok p X Xs :
  scaler_transform (Some p) X = Ok Xs ->
  Xs = scale_columns (mean_ p) (scale_ p) X /\ length X = length (mean_ p).
Proof.
  unfold scaler_transform.
  destruct (Nat.eqb (length X) (length (mean_ p))) eqn:E; [| discriminate].
  apply Nat.eqb_eq in E. intros H. inversion H. auto.
Qed.

Lemma scaler_fit_Ok X p :
  scaler_fit X = Ok p ->
  mean_ p = map mean X /\ var_ p = map var X /\
  scale_ p
  = map (fun c => handle_zeros_in_scale (var c) (mean c) (n_rows X)) X /\
  (0 < length X)%nat /\ (0 < n_rows X)%nat.
Proof.
  unfold scaler_fit.
  destruct (Nat.eqb (length X) 0) eqn:E1; [discriminate |].
  destruct (Nat.eqb (n_rows X) 0) eqn:E2; [discriminate |].
  apply Nat.eqb_neq in E1, E2.
  intros H. inversion H; subst; cbn. repeat split; auto; lia.
Qed.

Lemma scaler_fit_transform_Ok sc X sc' Xs :
  scaler_fit_transform sc X = Ok (sc', Xs) ->
  exists p, scaler_fit X = Ok p /\ sc' = Some p /\
            Xs = scale_columns (mean_ p) (scale_ p) X.
Proof.
  unfold scaler_fit_transform. intros H.
  apply rbind_Ok in H. destruct H as (p & Hfit & H).
  apply rbind_Ok in H. destruct H as (Xs' & Htr & H).
  apply scaler_transform_Ok in Htr. destruct Htr as [-> _].
  inversion H; subst. eauto.
Qed.

Section RunFacts.
Context {L : Sklearn}.

Lemma train_test_split_Ok X y ts seed global Xtr Xte ytr yte :
  train_test_split X y ts seed global = Ok (Xtr, Xte, ytr, yte) ->
  df_n_rows X = series_length y /\
  exists train test,
    split_indices (df_n_rows X) ts seed global = Ok (train, test) /\
    Xtr = df_take train X /\ Xte = df_take test X /\
    ytr = series_take train y /\ yte = series_take test y.
Proof.
  unfold train_test_split.
  destruct (Nat.eqb (df_n_rows X) (series_length y)) eqn:E; cbn [negb];
    [| discriminate].
  apply Nat.eqb_eq in E. intros H.
  apply rbind_Ok in H. destruct H as ([train test] & Hi & H).
  inversion H; subst. split; [exact E |]. exists train, test. auto.
Qed.

Lemma call_fit_Ok name model global X y log log' f :
  call_fit name model global X y log = (log', Ok f) ->
  model_fit model global X y = Ok f /\ log' = log ++ [EvModelFit name None].
Proof.
  unfold call_fit. intros H. inversion H as [[Hl Hr]].
  rewrite Hr. auto.
Qed.

Lemma call_predict_Ok name f X log log' predictions :
  call_predict name f X log = (log', Ok predictions) ->
  est_predict f X = Ok predictions /\ log' = log ++ [EvModelPredict name None].
Proof.
  unfold call_predict. intros H. inversion H as [[Hl Hr]].
  rewrite Hr. auto.
Qed.

(** A loop that runs to its end has recorded each model's accuracy in
    turn, and has logged only calls and lines about the models. *)
Lemma train_loop_Ok global p items :
  forall acc log log' acc',
    train_loop global p items acc log = (log', Ok acc') ->
    loop_result global p items acc acc' /\
    exists ext, log' = log ++ ext /\ forallb is_model_event ext = true.
Proof.
  induction items as [| [name model] rest IH]; intros acc log log' acc' H.
  - apply ret_Ok in H. destruct H as [-> ->]. split; [reflexivity |].
    exists []. now rewrite app_nil_r.
  - cbn [train_loop] in H.
    invert_step H. apply call_fit_Ok in Hstep. destruct Hstep as [Hfit ->].
    invert_step H. apply call_predict_Ok in Hstep. destruct Hstep as [Hpred ->].
    invert_step H. apply lift_Ok in Hstep. destruct Hstep as [-> Hscore].
    invert_step H. apply emit_Ok in Hstep. subst.
    apply IH in H. destruct H as (Hres & ext & -> & Hext).
    split.
    + cbn [loop_result]. exists a1. split; [| exact Hres].
      exists a, a0. auto.
    + eexists. rewrite <- !app_assoc. split; [reflexivity |].
      cbn. exact Hext.
Qed.

(** What a successful cell 5 has computed and logged. *)
Lemma cell5_prepare_Ok global df log log' p :
  cell5_prepare global df log = (log', Ok p) ->
  exists X y train test params,
    df_drop df "target" = Ok X /\
    py_getitem df "target" = Ok y /\
    df_n_rows X = series_length y /\
    split_indices (df_n_rows X) (2 # 10) (Some 42%Z) global = Ok (train, test) /\
    X_train p = df_take train X /\ X_test p = df_take test X /\
    y_train p = series_take train y /\ y_test p = series_take test y /\
    scaler_fit (to_numpy (X_train p)) = Ok params /\
    scaler p = Some params /\
    X_train_scaled p
      = scale_columns (mean_ params) (scale_ params) (to_numpy (X_train p)) /\
    X_test_scaled p
      = scale_columns (mean_ params) (scale_ params) (to_numpy (X_test p)) /\
    length (to_numpy (X_test p)) = length (mean_ params) /\
    log' = log ++ [EvScalerFit (to_numpy (X_train p));
                   EvScalerTransform (to_numpy (X_train p));
                   EvScalerTransform (to_numpy (X_test p));
                   EvPrint "Feature engineering complete."].
Proof.
  unfold cell5_prepare. intros H.
  invert_step H. apply lift_Ok in Hstep. destruct Hstep as [-> HX].
  invert_step H. apply lift_Ok in Hstep. destruct Hstep as [-> Hy].
  invert_step H. apply lift_Ok in Hstep. destruct Hstep as [-> Hsplit].
  destruct a1 as [[[Xtr Xte] ytr] yte].
  apply train_test_split_Ok in Hsplit.
  destruct Hsplit as (Hlen & train & test & Hi & -> & -> & -> & ->).
  invert_step H. destruct a1 as [sc Xtrs].
  unfold call_scaler_fit_transform in Hstep.
  invert_step Hstep. apply emit_Ok in Hstep0. subst.
  invert_step Hstep. apply emit_Ok in Hstep0. subst.
  apply lift_Ok in Hstep. destruct Hstep as [-> Hft].
  apply scaler_fit_transform_Ok in Hft. destruct Hft as (params & Hfit & -> & ->).
  invert_step H. unfold call_scaler_transform in Hstep.
  invert_step Hstep. apply emit_Ok in Hstep0. subst.
  apply lift_Ok in Hstep. destruct Hstep as [-> Htr].
  apply scaler_transform_Ok in Htr. destruct Htr as [-> Hcols].
  invert_step H. apply emit_Ok in Hstep. subst.
  apply ret_Ok in H. destruct H as [-> ->]. cbn.
  exists a, a0, train, test, params.
  rewrite <- !app_assoc. cbn. repeat split; auto.
Qed.

(** What a successful run has gone through. *)
Lemma run_Ok global b log out :
  run global b = (log, Ok out) ->
  exists df log3 log5 log7,
    cell1_load b = Ok df /\
    cell3_eda df [] = (log3, Ok tt) /\
    cell5_prepare global df log3 = (log5, Ok (prepared out)) /\
    cell7_train global (prepared out) log5 = (log7, Ok (accuracies out)) /\
    select_best (accuracies out)
      = Ok (best_model_name out, best_model_accuracy out) /\
    log = log7 ++ [EvPrintBest (best_model_name out) (best_model_accuracy out)].
Proof.
  unfold run, notebook. intros H.
  invert_step H. apply lift_Ok in Hstep. destruct Hstep as [-> Hload].
  invert_step H. destruct a0.
  invert_step H. invert_step H. invert_step H. destruct a2 as [name acc].
  apply ret_Ok in H. destruct H as [-> ->].
  cbn [prepared accuracies best_model_name best_model_accuracy].
  unfold cell9_select in Hstep2.
  invert_step Hstep2. destruct a2 as [name' acc'].
  apply lift_Ok in Hstep3. destruct Hstep3 as [-> Hsel].
  invert_step Hstep2. apply emit_Ok in Hstep3. subst.
  apply ret_Ok in Hstep2. destruct Hstep2 as [-> Heq]. inversion Heq; subst.
  exists a, log0, log1, log2. repeat split; assumption.
Qed.

(** The test labels of a successful run: an integer column with at
    least one row. *)
Lemma run_test_labels global b log out :
  run global b = (log, Ok out) ->
  exists labels,
    as_labels (y_test (prepared out)) = Ok labels /\ (0 < length labels)%nat.
Proof.
  intros H. apply run_Ok in H.
  destruct H as (df & log3 & log5 & log7 & Hload & _ & H5 & _).
  apply cell5_prepare_Ok in H5.
  destruct H5 as (X & y & train & test & params & _ & Hy & _ & Hi & _ & _ & _
                  & Hyte & _).
  rewrite (cell1_load_target _ _ Hload) in Hy. inversion Hy; subst y.
  apply split_indices_Ok in Hi. destruct Hi as (_ & (_ & _ & Hpos) & _).
  rewrite Hyte. cbn. eexists. split; [reflexivity |].
  now rewrite take_length.
Qed.

(** C2. In a run that completes, each of the three models has a
    recorded accuracy, and it is the number of test rows at which that
    model's prediction (made on the scaled test features by the model
    fitted on the scaled train features and the train labels) equals the
    true test label, divided by the number of test rows, which is not
    zero; hence it lies between 0 and 1. *)
Theorem C2_accuracy_is_fraction_of_correct_rows
  (global : rng) (b : Bunch) (log : list event) (out : Outputs)
  (name : string) (model : estimator) :
  run global b = (log, Ok out) ->
  In (name, model) (PyDict.items models) ->
  exists acc f predictions labels,
    PyDict.get (accuracies out) name = Some acc /\
    model_fit model global (X_train_scaled (prepared out))
      (y_train (prepared out)) = Ok f /\
    est_predict f (X_test_scaled (prepared out)) = Ok predictions /\
    as_labels (y_test (prepared out)) = Ok labels /\
    length predictions = length labels /\
    (0 < length labels)%nat /\
    acc = (inject_Z (Z.of_nat (n_correct labels predictions))
           / inject_Z (Z.of_nat (length labels)))%Q /\
    (0 <= acc <= 1)%Q.
Proof.
  intros Hrun Hin.
  destruct (run_test_labels _ _ _ _ Hrun) as (labels & Hlab & Hpos).
  apply run_Ok in Hrun.
  destruct Hrun as (df & log3 & log5 & log7 & _ & _ & _ & H7 & _).
  unfold cell7_train in H7. apply train_loop_Ok in H7. destruct H7 as [Hres _].
  cbn [loop_result PyDict.items models] in Hres.
  destruct Hres as (a1 & Hm1 & a2 & Hm2 & a3 & Hm3 & Hacc).
  assert (Hget : exists acc, PyDict.get (accuracies out) name = Some acc /\
                             model_accuracy global (prepared out) model acc).
  { rewrite Hacc. cbn in Hin.
    destruct Hin as [Hin | [Hin | [Hin | []]]]; inversion Hin; subst;
      eexists; (split; [reflexivity | assumption]). }
  destruct Hget as (acc & Hget & f & predictions & Hfit & Hpred & Hscore).
  unfold score_model in Hscore. rewrite Hlab in Hscore. cbn [rbind] in Hscore.
  apply accuracy_score_Ok in Hscore. destruct Hscore as (Hlen & Hacc' & Hle).
  exists acc, f, predictions, labels.
  repeat split; auto; subst acc; now apply fraction_in_unit_interval.
Qed.

Lemma has_duplicates_NoDup l : has_duplicates l = false <-> NoDup l.
Proof.
  induction l as [| x l IH]; cbn.
  - split; [constructor | reflexivity].
  - rewrite orb_false_iff, IH. split.
    + intros [Hx Hl]. constructor; [| exact Hl].
      intros Hin. apply not_true_iff_false in Hx. apply Hx.
      apply existsb_exists. exists x. split; [exact Hin | apply String.eqb_refl].
    + intros H. inversion H as [| ? ? Hx Hl]; subst. split; [| exact Hl].
      apply not_true_iff_false. intros E. apply existsb_exists in E.
      destruct E as (x' & Hin & E). apply String.eqb_eq in E. now subst x'.
Qed.

(** Cell 3 runs to its end exactly on a table whose column names differ,
    and then logs its four reports. *)
Lemma cell3_eda_Ok df log log' u :
  cell3_eda df log = (log', Ok u) ->
  NoDup (PyDict.keys df) /\ log' = log ++ eda_events df.
Proof.
  unfold cell3_eda. intros H.
  invert_step H. apply emit_Ok in Hstep. subst.
  invert_step H. apply emit_Ok in Hstep. subst.
  invert_step H. apply lift_Ok in Hstep. destruct Hstep as [-> Hplot].
  invert_step H. apply emit_Ok in Hstep. subst.
  apply emit_Ok in H. subst.
  split.
  - unfold sns_pairplot in Hplot.
    destruct (has_duplicates (PyDict.keys df)) eqn:E; [discriminate |].
    now apply has_duplicates_NoDup.
  - rewrite <- !app_assoc. reflexivity.
Qed.

Lemma cell3_eda_NoDup df log :
  NoDup (PyDict.keys df) -> cell3_eda df log = (log ++ eda_events df, Ok tt).
Proof.
  intros H. apply has_duplicates_NoDup in H.
  unfold cell3_eda, bind, emit, lift, sns_pairplot. rewrite H.
  rewrite <- !app_assoc. reflexivity.
Qed.

(** With a column name that occurs twice, cell 3 stops at the pair plot:
    the two printed reports are logged, the plots are not. *)
Lemma cell3_eda_duplicates df log :
  ~ NoDup (PyDict.keys df) ->
  exists x,
    cell3_eda df log
    = (log ++ [EvPrintMissing (PyDict.keys df); EvPrintDescribe (PyDict.keys df)],
       Raise x).
Proof.
  intros H.
  destruct (has_duplicates (PyDict.keys df)) eqn:E;
    [| elim H; now apply has_duplicates_NoDup].
  eexists. unfold cell3_eda, bind, emit, lift, sns_pairplot. rewrite E.
  rewrite <- !app_assoc. reflexivity.
Qed.

Lemma cell3_eda_log df log log' u :
  cell3_eda df log = (log', Ok u) ->
  exists ext, log' = log ++ ext /\ filter is_scaler_event ext = [].
Proof.
  intros H. apply cell3_eda_Ok in H. destruct H as [_ ->].
  eexists. split; reflexivity.
Qed.

Lemma model_events_not_scaler ext :
  forallb is_model_event ext = true -> filter is_scaler_event ext = [].
Proof.
  induction ext as [| e ext IH]; [reflexivity |].
  cbn. intros H. apply andb_true_iff in H. destruct H as [He Hext].
  destruct e; cbn in *; try discriminate; auto.
Qed.

(** The scaler of a successful run: fitted on the train part, applied
    unchanged to the test part, and called exactly three times. *)
Lemma run_scaler global b log out :
  run global b = (log, Ok out) ->
  exists params,
    scaler (prepared out) = Some params /\
    scaler_fit (to_numpy (X_train (prepared out))) = Ok params /\
    X_train_scaled (prepared out)
      = scale_columns (mean_ params) (scale_ params)
          (to_numpy (X_train (prepared out))) /\
    X_test_scaled (prepared out)
      = scale_columns (mean_ params) (scale_ params)
          (to_numpy (X_test (prepared out))) /\
    filter is_scaler_event log
      = [EvScalerFit (to_numpy (X_train (prepared out)));
         EvScalerTransform (to_numpy (X_train (prepared out)));
         EvScalerTransform (to_numpy (X_test (prepared out)))].
Proof.
  intros H. apply run_Ok in H.
  destruct H as (df & log3 & log5 & log7 & _ & H3 & H5 & H7 & _ & ->).
  apply cell3_eda_log in H3. destruct H3 as (ext3 & -> & Hf3).
  apply cell5_prepare_Ok in H5.
  destruct H5 as (X & y & train & test & params & _ & _ & _ & _ & _ & _ & _ & _
                  & Hfit & Hsc & Htr & Hte & _ & ->).
  unfold cell7_train in H7. apply train_loop_Ok in H7.
  destruct H7 as (_ & ext7 & -> & Hf7).
  apply model_events_not_scaler in Hf7.
  exists params. repeat split; auto.
  rewrite !filter_app, Hf3, Hf7. reflexivity.
Qed.

(** C5. The fitted scaler is a function of the train part alone: two
    completed runs whose train parts hold the same feature rows end with
    the same scaler parameters, whatever their test parts hold.  In a
    completed run the scaler is fitted exactly once, on the train part;
    the parameters it then holds are those of that fit, and the test
    part is transformed with them, by a call that does not fit. *)
Theorem C5_scaler_depends_on_train_only
  (global : rng) (b1 b2 : Bunch) (log1 log2 : list event) (out1 out2 : Outputs) :
  run global b1 = (log1, Ok out1) ->
  run global b2 = (log2, Ok out2) ->
  X_train (prepared out1) = X_train (prepared out2) ->
  scaler (prepared out1) = scaler (prepared out2) /\
  exists params,
    scaler (prepared out1) = Some params /\
    scaler_fit (to_numpy (X_train (prepared out1))) = Ok params /\
    X_test_scaled (prepared out1)
      = scale_columns (mean_ params) (scale_ params)
          (to_numpy (X_test (prepared out1))) /\
    filter is_scaler_event log1
      = [EvScalerFit (to_numpy (X_train (prepared out1)));
         EvScalerTransform (to_numpy (X_train (prepared out1)));
         EvScalerTransform (to_numpy (X_test (prepared out1)))].
Proof.
  intros H1 H2 Htrain.
  apply run_scaler in H1. destruct H1 as (p1 & Hs1 & Hf1 & _ & Hte1 & Hlog1).
  apply run_scaler in H2. destruct H2 as (p2 & Hs2 & Hf2 & _).
  split.
  - rewrite Hs1, Hs2. rewrite Htrain in Hf1. congruence.
  - exists p1. auto.
Qed.

End RunFacts.

(** ** Seeds *)
Section Determinism.
Context {L : Sklearn}.

(** A call that is given a seed does not look at the global generator. *)
Lemma train_test_split_seeded X y ts s (global1 global2 : rng) :
  train_test_split X y ts (Some s) global1
  = train_test_split X y ts (Some s) global2.
Proof. reflexivity. Qed.

Lemma model_fit_seeded model s (global1 global2 : rng) X y :
  PyDict.get (est_kwargs model) "random_state" = Some s ->
  model_fit model global1 X y = model_fit model global2 X y.
Proof. unfold model_fit. intros ->. reflexivity. Qed.

(** Each of the three constructor calls passes a seed. *)
Lemma models_are_seeded :
  Forall (fun ne => exists s,
            PyDict.get (est_kwargs (snd ne)) "random_state" = Some s)
    (PyDict.items models).
Proof. repeat constructor; eexists; reflexivity. Qed.

Lemma bind_ext {A B : Type} (c1 c2 : M A) (k1 k2 : A -> M B) log :
  (forall log0, c1 log0 = c2 log0) ->
  (forall a log', k1 a log' = k2 a log') ->
  bind c1 k1 log = bind c2 k2 log.
Proof.
  intros Hc Hk. unfold bind. rewrite Hc.
  destruct (c2 log) as [log' [a | e]]; auto.
Qed.

Lemma call_fit_seeded name model s (global1 global2 : rng) X y log :
  PyDict.get (est_kwargs model) "random_state" = Some s ->
  call_fit name model global1 X y log = call_fit name model global2 X y log.
Proof.
  intros Hs. unfold call_fit.
  now rewrite (model_fit_seeded model s global1 global2 X y Hs).
Qed.

Lemma train_loop_seeded (global1 global2 : rng) p items :
  Forall (fun ne => exists s,
            PyDict.get (est_kwargs (snd ne)) "random_state" = Some s) items ->
  forall acc log,
    train_loop global1 p items acc log = train_loop global2 p items acc log.
Proof.
  induction 1 as [| [name model] rest [s Hs] _ IH]; intros acc log;
    [reflexivity |].
  cbn [train_loop]. cbn [snd] in Hs.
  apply bind_ext; [intros log0; now apply (call_fit_seeded name model s) |].
  intros f log1. apply bind_ext; [reflexivity |].
  intros predictions log2. apply bind_ext; [reflexivity |].
  intros a log3. apply bind_ext; [reflexivity |].
  intros _ log4. apply IH.
Qed.

Lemma cell5_prepare_seeded (global1 global2 : rng) df log :
  cell5_prepare global1 df log = cell5_prepare global2 df log.
Proof. reflexivity. Qed.

(** C4. A run does not depend on the state of the global generator it
    starts in: the split and the three models are each given the seed 42
    and draw from a generator made afresh from it.  Two runs on the same
    data therefore agree on everything: the log, and either the raised
    exception or the outputs, that is, the train and test parts, the
    scaler parameters, the three accuracies and the selected name. *)
Theorem C4_run_independent_of_generator_state (global1 global2 : rng) (b : Bunch) :
  run global1 b = run global2 b.
Proof.
  unfold run, notebook.
  apply bind_ext; [reflexivity |]. intros df log1.
  apply bind_ext; [reflexivity |]. intros _ log3.
  apply bind_ext; [intros log0; apply cell5_prepare_seeded |]. intros p log5.
  apply bind_ext; [| reflexivity].
  intros log0. unfold cell7_train.
  apply train_loop_seeded, models_are_seeded.
Qed.

End Determinism.


(** The accuracy recorded for the logistic regression in a run over the
    stand-in library. *)
Lemma C2_accuracy_witness :
  exists acc log out,
    @run (ToyLibrary false) 0%Z toy_bunch = (log, Ok out) /\
    PyDict.get (accuracies out) LR_name = Some acc /\
    (0 <= acc <= 1)%Q.
Proof.
  assert (Hrun : exists log out,
             @run (ToyLibrary false) 0%Z toy_bunch = (log, Ok out)).
  { eexists. eexists. vm_compute. reflexivity. }
  destruct Hrun as (log & out & Hrun).
  destruct (@C2_accuracy_is_fraction_of_correct_rows (ToyLibrary false) 0%Z
              toy_bunch log out LR_name
              {| est_class := LogisticRegression;
                 est_kwargs := [("max_iter", 1000%Z); ("random_state", 42%Z)] |}
              Hrun)
    as (acc & f & predictions & labels & Hget & _ & _ & _ & _ & _ & _ & Hbounds).
  - cbn. right. left. reflexivity.
  - exists acc, log, out. auto.
Defined.

(** Two tables that differ in their test rows only have the same scaler. *)
Lemma C5_scaler_witness :
  exists log1 out1 log2 out2,
    @run (ToyLibrary false) 0%Z toy_bunch = (log1, Ok out1) /\
    @run (ToyLibrary false) 0%Z toy_bunch' = (log2, Ok out2) /\
    X_test (prepared out1) <> X_test (prepared out2) /\
    scaler (prepared out1) = scaler (prepared out2).
Proof.
  eexists. eexists. eexists. eexists.
  split; [vm_compute; reflexivity |].
  split; [vm_compute; reflexivity |].
  split.
  - cbn. intros H. inversion H. lra.
  - eapply (@C5_scaler_depends_on_train_only (ToyLibrary false) 0%Z
              toy_bunch toy_bunch').
    + vm_compute. reflexivity.
    + vm_compute. reflexivity.
    + reflexivity.
Defined.

(** ** Standardization over the reals *)
Section ScalerMath.
Local Open Scope R_scope.



Lemma Rsum_nonneg {A : Type} (f : A -> R) (l : list A) :
  (forall x, 0 <= f x) -> 0 <= Rsum (map f l).
Proof.
  intros Hf. induction l as [| x l IH]; cbn; [lra |].
  fold (Rsum (map f l)). specialize (Hf x). lra.
Qed.

Lemma Rsum_zero_terms {A : Type} (f : A -> R) (l : list A) :
  (forall x, 0 <= f x) -> Rsum (map f l) = 0 -> forall x, In x l -> f x = 0.
Proof.
  intros Hf. induction l as [| y l IH]; cbn; [contradiction |].
  fold (Rsum (map f l)). intros Hsum x [-> | Hin].
  - pose proof (Hf x). pose proof (Rsum_nonneg f l Hf). lra.
  - apply IH; [| exact Hin].
    pose proof (Hf y). pose proof (Rsum_nonneg f l Hf). lra.
Qed.

Lemma length_scale_column m s c : length (scale_column m s c) = length c.
Proof. apply length_map. Qed.

Lemma var_empty : var [] = 0.
Proof. unfold var, mean. cbn. unfold Rdiv. ring. Qed.

Lemma var_nonneg c : 0 <= var c.
Proof.
  destruct c as [| x c]; [rewrite var_empty; lra |].
  unfold var, mean at 1. rewrite length_map.
  set (m := mean (x :: c)).
  apply Rmult_le_pos.
  - apply (Rsum_nonneg (fun y => (y - m) * (y - m))). intros y. apply Rle_0_sqr.
  - left. apply Rinv_0_lt_compat. apply lt_0_INR. cbn. lia.
Qed.



Lemma float_eps_bounds : 0 < float_eps <= / 1024.
Proof.
  unfold float_eps.
  assert (H : 1024 <= 2 ^ 52).
  { replace 1024 with (2 ^ 10) by (cbn; ring).
    apply Rle_pow; [lra | lia]. }
  split.
  - apply Rinv_0_lt_compat. lra.
  - apply Rinv_le_contravar; [lra | exact H].
Qed.


(** The scale is 1 exactly for the features the library takes for
    constant, and the standard deviation otherwise. *)
Lemma handle_zeros_constant v m n :
  is_constant_feature v m n -> handle_zeros_in_scale v m n = 1.
Proof.
  intros [Hv | Hv]; unfold handle_zeros_in_scale.
  - destruct (Rle_dec _ _); [reflexivity | contradiction].
  - destruct (Rle_dec _ _); [reflexivity |].
    destruct (Rlt_dec _ _); [reflexivity | contradiction].
Qed.


(** A variance of zero is within the bound, whatever the mean. *)
Lemma zero_variance_constant v m n : v = 0 -> is_constant_feature v m n.
Proof.
  intros ->. left. rewrite Rmult_0_r, Rplus_0_l.
  apply Rle_0_sqr.
Qed.

Lemma handle_zeros_zero v m n : v = 0 -> handle_zeros_in_scale v m n = 1.
Proof. intros Hv. now apply handle_zeros_constant, zero_variance_constant. Qed.





(** In a column of zero variance every entry is the mean. *)
Lemma constant_column c x : var c = 0 -> In x c -> x = mean c.
Proof.
  intros Hv Hin.
  assert (Hc : c <> []) by (intros ->; contradiction).
  assert (Hn : 0 < INR (length c)).
  { apply lt_0_INR. destruct c; [contradiction | cbn; lia]. }
  unfold var, mean at 1 in Hv. rewrite length_map in Hv.
  assert (Hsum : Rsum (map (fun x => (x - mean c) * (x - mean c)) c) = 0).
  { apply (Rmult_eq_reg_r (/ INR (length c))).
    - unfold Rdiv in Hv. rewrite Hv. ring.
    - apply Rinv_neq_0_compat. lra. }
  pose proof (Rsum_zero_terms (fun x => (x - mean c) * (x - mean c)) c
                ltac:(intros y; apply Rle_0_sqr) Hsum x Hin) as Hx.
  cbn beta in Hx. nra.
Qed.

(** Scaled with the scale 1, such a column becomes a column of zeros. *)
Lemma constant_column_scaled c :
  var c = 0 -> scale_column (mean c) 1 c = map (fun _ => 0) c.
Proof.
  intros Hv. unfold scale_column. apply map_ext_in. intros x Hin.
  rewrite (constant_column c x Hv Hin). unfold Rdiv. ring.
Qed.


Lemma scale_columns_nth ms ss X j m s c :
  nth_error ms j = Some m -> nth_error ss j = Some s ->
  nth_error X j = Some c ->
  nth_error (scale_columns ms ss X) j = Some (scale_column m s c).
Proof.
  revert ss X j. induction ms as [| m' ms IH]; intros ss X j Hm Hs HX.
  - destruct j; discriminate.
  - destruct ss as [| s' ss]; [destruct j; discriminate |].
    destruct X as [| c' X]; [destruct j; discriminate |].
    destruct j as [| j]; cbn in *.
    + congruence.
    + now apply IH.
Qed.

End ScalerMath.

(** ** Standardization in a run *)
Section ScalerRun.
Context {L : Sklearn}.
Local Open Scope R_scope.

(** Column [j] of the scaled parts, in terms of column [j] of the train
    part. *)
Lemma run_train_rows global b log out c :
  run global b = (log, Ok out) ->
  In c (to_numpy (X_train (prepared out))) ->
  n_rows (to_numpy (X_train (prepared out))) = length c.
Proof.
  intros Hrun Hc. apply run_Ok in Hrun.
  destruct Hrun as (df & log3 & log5 & log7 & _ & _ & H5 & _).
  apply cell5_prepare_Ok in H5.
  destruct H5 as (X & y & train & test & params & _ & _ & _ & _ & HXtr & _).
  rewrite HXtr in Hc |- *.
  pose proof (to_numpy_take_rows train X) as Hall.
  rewrite (proj1 (Forall_forall _ _) Hall c Hc).
  apply n_rows_Forall; [| exact Hall].
  intros E. rewrite E in Hc. contradiction.
Qed.

Lemma run_scaled_column global b log out j c :
  run global b = (log, Ok out) ->
  nth_error (to_numpy (X_train (prepared out))) j = Some c ->
  exists params,
    scaler (prepared out) = Some params /\
    nth_error (mean_ params) j = Some (mean c) /\
    nth_error (var_ params) j = Some (var c) /\
    nth_error (scale_ params) j
      = Some (handle_zeros_in_scale (var c) (mean c) (length c)) /\
    nth_error (X_train_scaled (prepared out)) j
      = Some (scale_column (mean c)
                (handle_zeros_in_scale (var c) (mean c) (length c)) c) /\
    forall ct,
      nth_error (to_numpy (X_test (prepared out))) j = Some ct ->
      nth_error (X_test_scaled (prepared out)) j
        = Some (scale_column (mean c)
                  (handle_zeros_in_scale (var c) (mean c) (length c)) ct).
Proof.
  intros Hrun Hc.
  pose proof (run_train_rows _ _ _ _ _ Hrun (nth_error_In _ _ Hc)) as Hrows.
  apply run_scaler in Hrun.
  destruct Hrun as (params & Hsc & Hfit & Htr & Hte & _).
  apply scaler_fit_Ok in Hfit. destruct Hfit as (Hm & Hv & Hs & _).
  assert (Hmj : nth_error (mean_ params) j = Some (mean c))
    by (rewrite Hm; now apply map_nth_error).
  assert (Hvj : nth_error (var_ params) j = Some (var c))
    by (rewrite Hv; now apply map_nth_error).
  assert (Hsj : nth_error (scale_ params) j
                = Some (handle_zeros_in_scale (var c) (mean c) (length c))).
  { rewrite Hs, <- Hrows.
    now apply (map_nth_error (fun c => handle_zeros_in_scale (var c) (mean c) _)). }
  exists params. repeat split; auto.
  - rewrite Htr. now apply scale_columns_nth.
  - intros ct Hct. rewrite Hte. now apply scale_columns_nth.
Qed.


(** C7, amended. In a completed run, a feature column of the train part
    whose variance is zero gets the scale 1, not 0: nothing is divided
    by zero.  Its scaled train column is a column of zeros, and its
    scaled test column holds each raw test value minus the train mean,
    divided by 1. *)
Theorem C7_constant_column_gets_scale_one
  (global : rng) (b : Bunch) (log : list event) (out : Outputs)
  (j : nat) (c : column) :
  run global b = (log, Ok out) ->
  nth_error (to_numpy (X_train (prepared out))) j = Some c ->
  var c = 0 ->
  exists params,
    scaler (prepared out) = Some params /\
    nth_error (var_ params) j = Some 0 /\
    nth_error (scale_ params) j = Some 1 /\
    nth_error (X_train_scaled (prepared out)) j = Some (map (fun _ => 0) c) /\
    forall ct,
      nth_error (to_numpy (X_test (prepared out))) j = Some ct ->
      nth_error (X_test_scaled (prepared out)) j
        = Some (map (fun x => (x - mean c) / 1) ct).
Proof.
  intros Hrun Hc Hv.
  destruct (run_scaled_column _ _ _ _ _ _ Hrun Hc)
    as (params & Hsc & _ & Hvj & Hsj & Htr & Hte).
  rewrite (handle_zeros_zero _ _ _ Hv) in Hsj, Htr, Hte.
  rewrite (constant_column_scaled c Hv) in Htr. rewrite Hv in Hvj.
  exists params. repeat split; auto.
Qed.

End ScalerRun.

Lemma var_ones : var [1; 1; 1; 1; 1]%R = 0%R.
Proof. unfold var, mean. cbn. field. Qed.




(** The column 1, 1, 1, 1, 1 + eps, of a variance that is not zero, is
    taken for constant: its scale is 1, and its scaled values do not have
    standard deviation 1. *)
Lemma near_constant_column_scale_one :
  let c := [1; 1; 1; 1; 1 + float_eps]%R in
  var c <> 0%R /\ handle_zeros_in_scale (var c) (mean c) (length c) = 1%R.
Proof.
  intros c. pose proof float_eps_bounds as [H0 H1].
  assert (Hm : mean c = (1 + float_eps / 5)%R)
    by (unfold c, mean; cbn; field).
  assert (Hv : var c = (4 * (float_eps * float_eps) / 25)%R)
    by (unfold c, var, mean; cbn; field).
  assert (Hsq : (0 < float_eps * float_eps)%R) by now apply Rmult_lt_0_compat.
  split; [rewrite Hv; lra |].
  apply handle_zeros_constant. left. rewrite Hv, Hm.
  change (length c) with 5%nat. replace (INR 5) with 5%R by (cbn; ring).
  assert (H3 : (0 <= float_eps * (float_eps * float_eps))%R)
    by (apply Rmult_le_pos; lra).
  assert (H4 : (0 <= (float_eps * float_eps) * (float_eps * float_eps))%R)
    by (apply Rmult_le_pos; lra).
  nra.
Qed.

(** The run on the constant table, with its train column. *)
Lemma const_run :
  exists log out,
    @run (ToyLibrary false) 0%Z const_bunch = (log, Ok out) /\
    to_numpy (X_train (prepared out)) = [[1; 1; 1; 1; 1]%R].
Proof.
  eexists. eexists. split; [vm_compute; reflexivity | reflexivity].
Qed.


(** On the constant table the variance of the train column is zero, the
    scale the scaler divides by is 1, and the scaled train column is a
    column of zeros. *)
Lemma C7_constant_column_counterexample :
  exists log out c params,
    @run (ToyLibrary false) 0%Z const_bunch = (log, Ok out) /\
    nth_error (to_numpy (X_train (prepared out))) 0 = Some c /\
    var c = 0%R /\
    scaler (prepared out) = Some params /\
    nth_error (scale_ params) 0 = Some 1%R /\
    nth_error (X_train_scaled (prepared out)) 0 = Some [0; 0; 0; 0; 0]%R.
Proof.
  destruct const_run as (log & out & Hrun & HX).
  destruct (@run_scaled_column (ToyLibrary false) 0%Z const_bunch log out 0%nat
              [1; 1; 1; 1; 1]%R Hrun)
    as (params & Hsc & _ & _ & Hsj & Htr & _).
  { rewrite HX. reflexivity. }
  rewrite (handle_zeros_zero _ _ _ var_ones) in Hsj, Htr.
  rewrite (constant_column_scaled _ var_ones) in Htr.
  exists log, out, [1; 1; 1; 1; 1]%R, params.
  rewrite HX. repeat split; auto using var_ones.
Qed.


Lemma C7_scale_one_witness :
  exists log out params,
    @run (ToyLibrary false) 0%Z const_bunch = (log, Ok out) /\
    scaler (prepared out) = Some params /\
    nth_error (scale_ params) 0 = Some 1%R.
Proof.
  destruct const_run as (log & out & Hrun & HX).
  destruct (@C7_constant_column_gets_scale_one (ToyLibrary false) 0%Z
              const_bunch log out 0%nat [1; 1; 1; 1; 1]%R Hrun)
    as (params & Hsc & _ & Hs & _).
  - rewrite HX. reflexivity.
  - exact var_ones.
  - exists log, out, params. auto.
Defined.

(** ** Constructor arguments *)

(** Logistic regression is built with [max_iter=1000], where the library's
    default is 100: a keyword other than the seed departs from the
    defaults. *)
Lemma C8_max_iter_counterexample :
  exists name est,
    In (name, est) (PyDict.items models) /\
    In ("max_iter", 1000%Z) (non_default_kwargs est) /\
    library_default (est_class est) "max_iter" = Some 100%Z /\
    "max_iter" <> "random_state".
Proof.
  exists LR_name,
    {| est_class := LogisticRegression;
       est_kwargs := [("max_iter", 1000%Z); ("random_state", 42%Z)] |}.
  repeat split.
  - cbn. right. left. reflexivity.
  - cbn. left. reflexivity.
  - discriminate.
Qed.

(** C8, amended. The three constructor calls pass the seed
    [random_state=42] and nothing else, except that logistic regression
    also passes [max_iter=1000] (the default is 100).  Every other
    hyperparameter is left to the library. *)
Theorem C8_only_seed_and_max_iter_are_set :
  map (fun ne => (fst ne, est_class (snd ne), non_default_kwargs (snd ne)))
    (PyDict.items models)
  = [ (RF_name, RandomForestClassifier, [("random_state", 42%Z)]);
      (LR_name, LogisticRegression, [("max_iter", 1000%Z); ("random_state", 42%Z)]);
      (SVM_name, SVC, [("random_state", 42%Z)]) ] /\
  Forall (fun ne => non_default_kwargs (snd ne) = est_kwargs (snd ne))
    (PyDict.items models) /\
  library_default LogisticRegression "max_iter" = Some 100%Z.
Proof.
  split; [reflexivity |]. split; [| reflexivity].
  repeat constructor.
Qed.

(** ** The pair plot *)

Lemma keys_set_extends {V : Type} (d : PyDict.dict V) k v :
  exists tail, PyDict.keys (PyDict.set d k v) = PyDict.keys d ++ tail.
Proof.
  induction d as [| [k' v'] d IH]; cbn.
  - exists [k]. reflexivity.
  - destruct (String.eqb k' k); cbn.
    + exists []. now rewrite app_nil_r.
    + destruct IH as [tail IH]. exists tail. unfold PyDict.keys in IH.
      now rewrite IH.
Qed.

Lemma keys_combine {V : Type} (names : list string) (vals : list V) :
  length vals = length names -> PyDict.keys (combine names vals) = names.
Proof.
  unfold PyDict.keys. revert vals.
  induction names as [| n names IH]; intros [| v vals] H;
    try discriminate; cbn; [reflexivity |].
  f_equal. apply IH. cbn in H. lia.
Qed.

Lemma cell1_load_columns b df :
  cell1_load b = Ok df ->
  exists tail, PyDict.keys df = feature_names b ++ tail /\
               PyDict.mem df "target" = true.
Proof.
  unfold cell1_load. intros H. apply rbind_Ok in H. destruct H as (df0 & H0 & H).
  apply df_setitem_Ok in H. subst df.
  unfold pd_DataFrame in H0.
  destruct (Nat.eqb (length (data b)) (length (feature_names b))) eqn:E;
    [| discriminate].
  apply Nat.eqb_eq in E. inversion H0; subst df0; clear H0.
  destruct (keys_set_extends (combine (feature_names b) (map FloatSeries (data b)))
              "target" (IntSeries (target b))) as [tail Ht].
  exists tail. split.
  - rewrite Ht, keys_combine; [reflexivity |]. now rewrite length_map.
  - unfold PyDict.mem. now rewrite get_set_same.
Qed.

(** C10. When the table has at least five features (the data set has
    thirty), the grid of the pair plot is made of the first five columns
    of the table in their order, which are the first five features; the
    colour is the [target] column, which the table has; and the plot
    reads these columns and no other.  The run draws this plot. *)
Theorem C10_pairplot_uses_first_five_features (b : Bunch) (df : DataFrame) :
  cell1_load b = Ok df ->
  (5 <= length (feature_names b))%nat ->
  pp_vars (cell3_pairplot df) = firstn 5 (PyDict.keys df) /\
  pp_vars (cell3_pairplot df) = firstn 5 (feature_names b) /\
  length (pp_vars (cell3_pairplot df)) = 5%nat /\
  pp_hue (cell3_pairplot df) = "target" /\
  PyDict.mem df "target" = true /\
  pairplot_columns (cell3_pairplot df) = firstn 5 (feature_names b) ++ ["target"] /\
  forall log log',
    cell3_eda df log = (log', Ok tt) -> In (EvPairplot (cell3_pairplot df)) log'.
Proof.
  intros Hload Hlen.
  destruct (cell1_load_columns _ _ Hload) as (tail & Hkeys & Hmem).
  assert (Hvars : pp_vars (cell3_pairplot df) = firstn 5 (feature_names b)).
  { cbn [cell3_pairplot pp_vars]. rewrite Hkeys, firstn_app.
    replace (5 - length (feature_names b))%nat with 0%nat by lia.
    cbn [firstn]. apply app_nil_r. }
  split; [reflexivity |]. split; [exact Hvars |]. split.
  { rewrite Hvars, length_firstn. lia. }
  split; [reflexivity |]. split; [exact Hmem |]. split.
  { unfold pairplot_columns. now rewrite Hvars. }
  intros log log' H. apply cell3_eda_Ok in H. destruct H as [_ ->].
  apply in_or_app. right. right. right. left. reflexivity.
Qed.

(** The pair plot of a table under the thirty feature names. *)
Lemma C10_pairplot_witness :
  exists df,
    cell1_load wide_bunch = Ok df /\
    pp_vars (cell3_pairplot df)
      = ["mean radius"; "mean texture"; "mean perimeter"; "mean area";
         "mean smoothness"] /\
    pp_hue (cell3_pairplot df) = "target".
Proof.
  assert (Hload : exists df, cell1_load wide_bunch = Ok df).
  { eexists. vm_compute. reflexivity. }
  destruct Hload as (df & Hload).
  destruct (C10_pairplot_uses_first_five_features wide_bunch df Hload)
    as (_ & Hvars & _ & Hhue & _).
  - cbn. lia.
  - exists df. repeat split; auto.
Defined.

(** ** Failures of [fit] and [predict] *)

Lemma no_failure_app ext1 ext2 :
  no_failure ext1 -> no_failure ext2 -> no_failure (ext1 ++ ext2).
Proof. intros H1 H2. apply Forall_app. auto. Qed.

Lemma no_best_app ext1 ext2 :
  no_best ext1 -> no_best ext2 -> no_best (ext1 ++ ext2).
Proof. intros H1 H2. apply Forall_app. auto. Qed.

(** Steps compose: when a step raises, the steps after it do not run. *)
Lemma ends_well_bind {A B : Type} (c : M A) (k : A -> M B) log log' r :
  quiet c ->
  bind c k log = (log', r) ->
  (exists ext, log' = log ++ ext /\ no_best ext /\ ends_well ext r) \/
  (exists a ext1 log1,
      c log = (log1, Ok a) /\ log1 = log ++ ext1 /\
      no_best ext1 /\ no_failure ext1 /\ k a log1 = (log', r)).
Proof.
  intros Hc H. unfold bind in H.
  destruct (c log) as [log1 [a | e]] eqn:Ec.
  - destruct (Hc _ _ _ Ec) as (ext1 & -> & Hb1 & Hw1). cbn in Hw1.
    right. exists a, ext1, (log ++ ext1). auto.
  - inversion H; subst. left. exact (Hc _ _ _ Ec).
Qed.

Lemma ends_well_after {A : Type} ext1 ext2 (r : result A) :
  no_best ext1 -> no_failure ext1 -> ends_well ext2 r -> ends_well (ext1 ++ ext2) r.
Proof.
  intros Hb1 Hf1. destruct r as [a | x]; cbn.
  - now apply no_failure_app.
  - intros (Hb2 & H). split; [now apply no_best_app |].
    destruct H as [H | (ext0 & ev & -> & Hf0 & Hev)].
    + left. now apply no_failure_app.
    + right. exists (ext1 ++ ext0), ev. rewrite app_assoc.
      repeat split; auto. now apply no_failure_app.
Qed.

Lemma quiet_bind {A B : Type} (c : M A) (k : A -> M B) :
  quiet c -> (forall a, quiet (k a)) -> quiet (bind c k).
Proof.
  intros Hc Hk log log' r H.
  destruct (ends_well_bind c k log log' r Hc H)
    as [Hraise | (a & ext1 & log1 & _ & -> & Hb1 & Hf1 & Hka)]; [exact Hraise |].
  destruct (Hk a _ _ _ Hka) as (ext2 & -> & Hb2 & Hw2).
  exists (ext1 ++ ext2). rewrite app_assoc. split; [reflexivity |].
  split; [now apply no_best_app | now apply ends_well_after].
Qed.

Lemma aborting_bind {A B : Type} (c : M A) (k : A -> M B) :
  quiet c -> (forall a, aborting (k a)) -> aborting (bind c k).
Proof.
  intros Hc Hk log log' r H.
  destruct (ends_well_bind c k log log' r Hc H)
    as [(ext & -> & _ & Hw) | (a & ext1 & log1 & _ & -> & Hb1 & Hf1 & Hka)].
  - exists ext. auto.
  - destruct (Hk a _ _ _ Hka) as (ext2 & -> & Hw2).
    exists (ext1 ++ ext2). rewrite app_assoc. split; [reflexivity |].
    now apply ends_well_after.
Qed.

Lemma quiet_ret {A : Type} (a : A) : quiet (ret a).
Proof.
  intros log log' r H. inversion H; subst. exists [].
  rewrite app_nil_r. repeat split; constructor.
Qed.

Lemma quiet_lift {A : Type} (r0 : result A) : quiet (lift r0).
Proof.
  intros log log' r H. inversion H; subst. exists [].
  rewrite app_nil_r. split; [reflexivity |]. split; [constructor |].
  destruct r; cbn; [constructor |]. split; [constructor | left; constructor].
Qed.

Lemma quiet_emit e :
  failed_call e = None -> is_best_event e = false -> quiet (emit e).
Proof.
  intros Hf Hb log log' r H. inversion H; subst. exists [e].
  split; [reflexivity |]. split; repeat constructor; assumption.
Qed.

Section Failures.
Context {L : Sklearn}.

Lemma quiet_call_fit name model global X y :
  quiet (call_fit name model global X y).
Proof.
  intros log log' r H. unfold call_fit in H. inversion H; subst; clear H.
  eexists. split; [reflexivity |].
  split; [repeat constructor |].
  destruct (model_fit model global X y) as [f | x]; cbn.
  - repeat constructor.
  - split; [repeat constructor |]. right.
    exists [], (EvModelFit name (Some x)). repeat split. constructor.
Qed.

Lemma quiet_call_predict name f X : quiet (call_predict name f X).
Proof.
  intros log log' r H. unfold call_predict in H. inversion H; subst; clear H.
  eexists. split; [reflexivity |].
  split; [repeat constructor |].
  destruct (est_predict f X) as [p | x]; cbn.
  - repeat constructor.
  - split; [repeat constructor |]. right.
    exists [], (EvModelPredict name (Some x)). repeat split. constructor.
Qed.

Lemma quiet_train_loop global p items :
  forall acc, quiet (train_loop global p items acc).
Proof.
  induction items as [| [name model] rest IH]; intros acc; cbn [train_loop].
  - apply quiet_ret.
  - apply quiet_bind; [apply quiet_call_fit |]. intros f.
    apply quiet_bind; [apply quiet_call_predict |]. intros predictions.
    apply quiet_bind; [apply quiet_lift |]. intros accuracy.
    apply quiet_bind; [now apply quiet_emit |]. intros _.
    apply IH.
Qed.

Lemma quiet_cell3 df : quiet (cell3_eda df).
Proof.
  unfold cell3_eda.
  repeat (apply quiet_bind; [now apply quiet_emit | intros _]).
  apply quiet_bind; [apply quiet_lift | intros _].
  apply quiet_bind; [now apply quiet_emit | intros _].
  now apply quiet_emit.
Qed.

Lemma quiet_cell5 global df : quiet (cell5_prepare global df).
Proof.
  unfold cell5_prepare.
  apply quiet_bind; [apply quiet_lift |]. intros X.
  apply quiet_bind; [apply quiet_lift |]. intros y.
  apply quiet_bind; [apply quiet_lift |]. intros [[[Xtr Xte] ytr] yte].
  apply quiet_bind.
  { unfold call_scaler_fit_transform.
    repeat (apply quiet_bind; [now apply quiet_emit | intros _]).
    apply quiet_lift. }
  intros [sc Xs].
  apply quiet_bind.
  { unfold call_scaler_transform.
    apply quiet_bind; [now apply quiet_emit | intros _]. apply quiet_lift. }
  intros Xts.
  apply quiet_bind; [now apply quiet_emit | intros _]. apply quiet_ret.
Qed.

(** The last cell prints its line only when the selection returned. *)
Lemma aborting_cell9 {A : Type} accuracies (k : string * Q -> M A) :
  (forall na, exists a, k na = ret a) ->
  aborting (bind (cell9_select accuracies) k).
Proof.
  intros Hk log log' r H. unfold bind, cell9_select, bind, lift in H.
  destruct (select_best accuracies) as [[name acc] | x]; cbn in H.
  - destruct (Hk (name, acc)) as [a Ha]. rewrite Ha in H.
    inversion H; subst; clear H.
    exists [EvPrintBest name acc]. split; [reflexivity |].
    cbn. repeat constructor.
  - inversion H; subst; clear H.
    exists []. rewrite app_nil_r. split; [reflexivity |].
    cbn. split; [constructor | left; constructor].
Qed.

Lemma aborting_notebook global b : aborting (notebook global b).
Proof.
  unfold notebook.
  apply aborting_bind; [apply quiet_lift |]. intros df.
  apply aborting_bind; [apply quiet_cell3 |]. intros _.
  apply aborting_bind; [apply quiet_cell5 |]. intros p.
  apply aborting_bind; [apply quiet_train_loop |]. intros accuracies.
  apply aborting_cell9. intros [name acc]. eexists. reflexivity.
Qed.

(** A failed call among events of which all but the last are free of
    failures is the last one. *)
Lemma failed_call_is_last (l1 l2 ext0 : list event) (ev ev' : event) x :
  l1 ++ ev :: l2 = ext0 ++ [ev'] ->
  no_failure ext0 -> failed_call ev = Some x ->
  l2 = [] /\ l1 = ext0 /\ ev = ev'.
Proof.
  intros Heq Hf Hev.
  destruct l2 as [| e2 l2] using rev_ind.
  - apply app_inj_tail in Heq. destruct Heq. auto.
  - clear IHl2. rewrite app_comm_cons, app_assoc in Heq.
    apply app_inj_tail in Heq. destruct Heq as [Heq _]. subst ext0.
    apply Forall_app in Hf. destruct Hf as [_ Hf]. inversion Hf; subst.
    congruence.
Qed.

(** C9. If a call of [fit] or [predict] on a model raised an exception,
    then that call is the last thing the run did: no call follows it (no
    retry, no fit or prediction or score of a later model, no "best
    model" line), no earlier call had failed, and the run ends by
    raising that same exception, so it has no outputs. *)
Theorem C9_failed_call_aborts_run
  (global : rng) (b : Bunch) (log : list event) (r : result Outputs)
  (l1 l2 : list event) (ev : event) (x : exn) :
  run global b = (log, r) ->
  log = l1 ++ ev :: l2 ->
  failed_call ev = Some x ->
  r = Raise x /\ l2 = [] /\ no_failure l1 /\ no_best log.
Proof.
  intros Hrun Hlog Hev.
  destruct (aborting_notebook global b _ _ _ Hrun) as (ext & Hext & Hw).
  cbn [app] in Hext. subst ext.
  assert (Hnot : ~ no_failure log).
  { intros Hf. rewrite Hlog in Hf. apply Forall_app in Hf.
    destruct Hf as [_ Hf]. inversion Hf; subst. congruence. }
  destruct r as [out | x']; cbn in Hw; [contradiction |].
  destruct Hw as (Hb & [Hf | (ext0 & ev' & Hlast & Hf0 & Hev')]);
    [contradiction |].
  rewrite Hlog in Hlast.
  destruct (failed_call_is_last _ _ _ _ _ _ Hlast Hf0 Hev) as (-> & -> & ->).
  repeat split; auto. congruence.
Qed.

End Failures.

(** A run over the stand-in library whose logistic regression fails to
    fit: the run stops there, raising the error of the fit. *)
Lemma C9_failed_fit_witness :
  exists log r,
    @run (ToyLibrary true) 0%Z toy_bunch = (log, r) /\
    r = Raise (ValueError "Input X contains NaN") /\
    last log (EvPrint "") = EvModelFit LR_name (Some (ValueError "Input X contains NaN")).
Proof.
  set (res := @run (ToyLibrary true) 0%Z toy_bunch).
  exists (fst res), (snd res).
  split; [apply surjective_pairing |].
  split.
  - eapply (@C9_failed_call_aborts_run (ToyLibrary true) 0%Z toy_bunch
              (fst res) (snd res) (firstn 11 (fst res))
              [] (EvModelFit LR_name (Some (ValueError "Input X contains NaN")))).
    + apply surjective_pairing.
    + vm_compute. reflexivity.
    + reflexivity.
  - vm_compute. reflexivity.
Defined.


(** ** Selection in a run *)
Section Selection.
Context {L : Sklearn}.

(** The dict the selection reads in a completed run is the one the loop
    filled, one model after the other, and the reported pair is what the
    selection returns on it. *)
Lemma run_selects_from_recorded global b log out :
  run global b = (log, Ok out) ->
  exists a1 a2 a3,
    accuracies out = recorded a1 a2 a3 /\
    select_best (recorded a1 a2 a3)
      = Ok (best_model_name out, best_model_accuracy out).
Proof.
  intros H. apply run_Ok in H.
  destruct H as (df & log3 & log5 & log7 & _ & _ & _ & H7 & Hsel & _).
  unfold cell7_train in H7. apply train_loop_Ok in H7. destruct H7 as [Hres _].
  cbn [loop_result PyDict.items models] in Hres.
  destruct Hres as (a1 & _ & a2 & _ & a3 & _ & Hacc).
  exists a1, a2, a3. rewrite Hacc in Hsel |- *.
  split; [reflexivity | exact Hsel].
Qed.

End Selection.

(** * Further properties *)

(** ** Dictionaries and tables *)

Lemma get_set_other {V : Type} (d : PyDict.dict V) k k' v :
  k <> k' -> PyDict.get (PyDict.set d k v) k' = PyDict.get d k'.
Proof.
  intros Hk. induction d as [| [k0 v0] d IH]; cbn.
  - destruct (String.eqb_spec k k'); [contradiction | reflexivity].
  - destruct (String.eqb_spec k0 k); cbn.
    + subst k0. destruct (String.eqb_spec k k'); [contradiction | reflexivity].
    + destruct (String.eqb_spec k0 k'); [reflexivity | exact IH].
Qed.

Lemma set_absent {V : Type} (d : PyDict.dict V) k v :
  ~ In k (PyDict.keys d) -> PyDict.set d k v = d ++ [(k, v)].
Proof.
  induction d as [| [k0 v0] d IH]; cbn; intros Hk; [reflexivity |].
  destruct (String.eqb_spec k0 k); [exfalso; auto |].
  rewrite IH; auto.
Qed.

Lemma remove_absent {V : Type} (d : PyDict.dict V) k :
  ~ In k (PyDict.keys d) -> PyDict.remove d k = d.
Proof.
  induction d as [| [k0 v0] d IH]; cbn; intros Hk; [reflexivity |].
  destruct (String.eqb_spec k0 k); [exfalso; auto |].
  rewrite IH; auto.
Qed.

Lemma remove_app {V : Type} (d1 d2 : PyDict.dict V) k :
  PyDict.remove (d1 ++ d2) k = PyDict.remove d1 k ++ PyDict.remove d2 k.
Proof.
  induction d1 as [| [k0 v0] d1 IH]; cbn; [reflexivity |].
  destruct (String.eqb k0 k); cbn; now rewrite IH.
Qed.

Lemma keys_remove {V : Type} (d : PyDict.dict V) k :
  ~ In k (PyDict.keys (PyDict.remove d k)).
Proof.
  induction d as [| [k0 v0] d IH]; cbn; [tauto |].
  destruct (String.eqb_spec k0 k); cbn; [exact IH |].
  intros [H | H]; [contradiction | now apply IH].
Qed.

Lemma get_In {V : Type} (d : PyDict.dict V) k v :
  NoDup (PyDict.keys d) -> In (k, v) d -> PyDict.get d k = Some v.
Proof.
  induction d as [| [k0 v0] d IH]; cbn; intros Hnd Hin; [contradiction |].
  inversion Hnd as [| ? ? Hk0 Hnd']; subst.
  destruct Hin as [Heq | Hin].
  - inversion Heq; subst. now rewrite String.eqb_refl.
  - destruct (String.eqb_spec k0 k).
    + subst k0. exfalso. apply Hk0. apply (in_map fst) in Hin. exact Hin.
    + now apply IH.
Qed.

Lemma to_numpy_combine names (values : matrix) :
  length values = length names ->
  to_numpy (combine names (map FloatSeries values)) = values.
Proof.
  unfold to_numpy. revert values.
  induction names as [| n names IH]; intros [| c values] H;
    try discriminate; cbn; [reflexivity |].
  f_equal. apply IH. cbn in H. lia.
Qed.

(** The table of a well-formed data set: the feature columns under their
    names, then the target. *)
Lemma cell1_load_well_formed b n :
  well_formed b n ->
  cell1_load b
  = Ok (combine (feature_names b) (map FloatSeries (data b))
        ++ [("target", IntSeries (target b))]).
Proof.
  intros (Hlen & Hne & Hcols & Htarget & Hname).
  unfold cell1_load, pd_DataFrame. rewrite Hlen, Nat.eqb_refl. cbn [rbind].
  assert (Hkeys : PyDict.keys (combine (feature_names b) (map FloatSeries (data b)))
                  = feature_names b)
    by (apply keys_combine; now rewrite length_map).
  unfold df_setitem.
  destruct (data b) as [| c cols] eqn:Ed; [contradiction |].
  destruct (feature_names b) as [| name names] eqn:En; [discriminate |].
  cbn [map combine df_n_rows series_length].
  pose proof (Forall_inv Hcols) as Hc. cbn beta in Hc.
  rewrite Htarget, Hc, Nat.eqb_refl.
  f_equal. apply set_absent. rewrite <- En in Hname.
  cbn [map combine] in Hkeys. rewrite Hkeys. rewrite En in Hname. exact Hname.
Qed.

(** X1. The features handed to the split never hold the label: after
    [df["target"] = data.target], dropping the column [target] succeeds and
    leaves no column of that name, and [df["target"]] is the integer target
    of the data set.  When no feature is called [target], the columns that
    remain are the feature columns under their names, with the values of
    [data.data]. *)
Theorem features_exclude_target (b : Bunch) (df : DataFrame) :
  cell1_load b = Ok df ->
  exists X,
    df_drop df "target" = Ok X /\
    ~ In "target" (PyDict.keys X) /\
    py_getitem df "target" = Ok (IntSeries (target b)) /\
    (~ In "target" (feature_names b) ->
     PyDict.keys X = feature_names b /\ to_numpy X = data b).
Proof.
  intros Hload.
  pose proof (cell1_load_target _ _ Hload) as Hy.
  exists (PyDict.remove df "target").
  split.
  { unfold df_drop, PyDict.mem. unfold py_getitem in Hy.
    destruct (PyDict.get df "target"); [reflexivity | discriminate]. }
  split; [apply keys_remove |]. split; [exact Hy |].
  intros Hname.
  unfold cell1_load in Hload. apply rbind_Ok in Hload.
  destruct Hload as (df0 & H0 & Hset). apply df_setitem_Ok in Hset.
  unfold pd_DataFrame in H0.
  destruct (Nat.eqb (length (data b)) (length (feature_names b))) eqn:E;
    [| discriminate].
  apply Nat.eqb_eq in E. inversion H0; subst df0; clear H0.
  assert (Hkeys : PyDict.keys (combine (feature_names b) (map FloatSeries (data b)))
                  = feature_names b)
    by (apply keys_combine; now rewrite length_map).
  rewrite set_absent in Hset by now rewrite Hkeys.
  subst df. rewrite remove_app, remove_absent by now rewrite Hkeys.
  cbn. rewrite app_nil_r. split; [exact Hkeys | now apply to_numpy_combine].
Qed.

Lemma features_exclude_target_witness :
  exists df X,
    cell1_load toy_bunch = Ok df /\
    df_drop df "target" = Ok X /\
    PyDict.keys X = ["mean radius"].
Proof.
  assert (Hload : exists df, cell1_load toy_bunch = Ok df).
  { eexists. vm_compute. reflexivity. }
  destruct Hload as (df & Hload).
  destruct (features_exclude_target toy_bunch df Hload) as (X & HX & _ & _ & Hk).
  exists df, X. repeat split; auto.
  apply Hk. cbn. intros [H | []]. discriminate.
Defined.

(** ** Selection on any dict *)

(** The loop of [max] over entries whose keys the key function maps to
    their values: either the running maximum survives, and nothing after
    it is greater, or the winner is a later entry, strictly greater than
    the running maximum and than everything before it, and nothing after
    it is greater. *)
Lemma max_loop_first_maximum key (rest : list (string * Q)) :
  (forall e, In e rest -> key (fst e) = Some (snd e)) ->
  forall mk mv,
  exists k v,
    max_loop key (map fst rest) mk (Some mv) = Ok k /\
    ((k = mk /\ v = mv /\ Forall (fun e => (snd e <= mv)%Q) rest) \/
     (exists r1 r2,
         rest = r1 ++ (k, v) :: r2 /\ (mv < v)%Q /\
         Forall (fun e => (snd e < v)%Q) r1 /\
         Forall (fun e => (snd e <= v)%Q) r2)).
Proof.
  induction rest as [| [k0 v0] rest IH]; intros Hkey mk mv.
  - exists mk, mv. split; [reflexivity |]. left. auto.
  - pose proof (Hkey (k0, v0) (or_introl eq_refl)) as Hk0. cbn [fst snd] in Hk0.
    cbn [map fst max_loop]. cbn zeta. rewrite Hk0. cbn [py_gt].
    assert (Hkey' : forall e, In e rest -> key (fst e) = Some (snd e))
      by (intros e He; apply Hkey; now right).
    destruct (Qlt_bool mv v0) eqn:E.
    + apply Qlt_bool_true in E.
      destruct (IH Hkey' k0 v0) as (k & v & Hloop & Hcase).
      exists k, v. split; [exact Hloop |]. right.
      destruct Hcase as [(-> & -> & Hall) | (r1 & r2 & -> & Hlt & H1 & H2)].
      * exists [], rest. cbn. repeat split; auto.
      * exists ((k0, v0) :: r1), r2. cbn. repeat split; auto.
        eapply Qlt_trans; eauto.
    + apply Qlt_bool_false in E.
      destruct (IH Hkey' mk mv) as (k & v & Hloop & Hcase).
      exists k, v. split; [exact Hloop |].
      destruct Hcase as [(-> & -> & Hall) | (r1 & r2 & -> & Hlt & H1 & H2)].
      * left. repeat split; auto.
      * right. exists ((k0, v0) :: r1), r2. cbn. repeat split; auto.
        constructor; auto. cbn. eapply Qle_lt_trans; eauto.
Qed.

(** Selection on a non-empty dict returns its first maximal entry. *)
Lemma select_best_nonempty (d : PyDict.dict Q) :
  NoDup (PyDict.keys d) -> d <> [] ->
  exists pre k v post,
    d = pre ++ (k, v) :: post /\
    select_best d = Ok (k, v) /\
    Forall (fun e => (snd e < v)%Q) pre /\
    Forall (fun e => (snd e <= v)%Q) post.
Proof.
  intros Hnd Hne. destruct d as [| [k0 v0] rest]; [contradiction |].
  assert (Hkey : forall e, In e rest ->
                           PyDict.get ((k0, v0) :: rest) (fst e) = Some (snd e)).
  { intros [k v] He. apply get_In; [exact Hnd | now right]. }
  destruct (max_loop_first_maximum (PyDict.get ((k0, v0) :: rest)) rest Hkey k0 v0)
    as (k & v & Hloop & Hcase).
  assert (Hmax : py_max (PyDict.keys ((k0, v0) :: rest))
                   (PyDict.get ((k0, v0) :: rest)) = Ok k).
  { cbn [PyDict.keys map fst py_max].
    rewrite (get_In ((k0, v0) :: rest) k0 v0 Hnd) by now left. exact Hloop. }
  destruct Hcase as [(-> & -> & Hall) | (r1 & r2 & -> & Hlt & H1 & H2)].
  - exists [], k0, v0, rest. cbn [app].
    split; [reflexivity |]. split; [| split; [constructor | exact Hall]].
    unfold select_best. rewrite Hmax. cbn [rbind]. unfold py_getitem.
    rewrite (get_In ((k0, v0) :: rest) k0 v0 Hnd) by now left. reflexivity.
  - exists ((k0, v0) :: r1), k, v, r2. cbn [app].
    split; [reflexivity |].
    split; [| split; [constructor; [exact Hlt | exact H1] | exact H2]].
    unfold select_best. rewrite Hmax. cbn [rbind]. unfold py_getitem.
    rewrite (get_In _ k v Hnd); [reflexivity |].
    right. apply in_or_app. right. now left.
Qed.

(** X2. Selection over any dict with distinct keys: on the empty dict
    [max] raises [ValueError]; on a non-empty one the selection returns an
    entry of the dict such that every entry before it is strictly smaller
    and no entry after it is greater, that is, the first entry of maximal
    accuracy, with its own accuracy. *)
Theorem select_best_returns_first_maximum (d : PyDict.dict Q) :
  NoDup (PyDict.keys d) ->
  (d = [] ->
   select_best d = Raise (ValueError "max() arg is an empty sequence")) /\
  (d <> [] ->
   exists pre k v post,
     d = pre ++ (k, v) :: post /\
     select_best d = Ok (k, v) /\
     Forall (fun e => (snd e < v)%Q) pre /\
     Forall (fun e => (snd e <= v)%Q) post).
Proof.
  intros Hnd. split.
  - intros ->. reflexivity.
  - now apply select_best_nonempty.
Qed.

Lemma select_best_returns_first_maximum_witness :
  select_best [("a", 1 # 2); ("b", 3 # 4); ("c", 3 # 4); ("d", 1 # 4)]%Q
  = Ok ("b", (3 # 4)%Q).
Proof.
  destruct (select_best_returns_first_maximum
              [("a", 1 # 2); ("b", 3 # 4); ("c", 3 # 4); ("d", 1 # 4)]%Q)
    as [_ H].
  - repeat constructor; cbn; intuition discriminate.
  - destruct H as (pre & k & v & post & _ & Hsel & _); [discriminate |].
    rewrite Hsel. vm_compute in Hsel. inversion Hsel. reflexivity.
Defined.

(** ** The loop *)

Lemma bind_assoc {A B C : Type} (c : M A) (k : A -> M B) (h : B -> M C) log :
  bind (bind c k) h log = bind c (fun a => bind (k a) h) log.
Proof.
  unfold bind. destruct (c log) as [log1 [a | e]]; reflexivity.
Qed.

Section LoopFacts.
Context {L : Sklearn}.

(** X3. The loop over two lists of models, one after the other, is the
    loop over the first list followed, if it returns, by the loop over the
    second from the dict and the log the first has reached; if the first
    raises, the second is not run. *)
Theorem train_loop_app (global : rng) (p : Prepared)
  (items1 items2 : list (string * estimator)) (acc : PyDict.dict Q)
  (log : list event) :
  train_loop global p (items1 ++ items2) acc log
  = bind (train_loop global p items1 acc)
      (fun acc' => train_loop global p items2 acc') log.
Proof.
  revert acc log. induction items1 as [| [name model] rest IH]; intros acc log.
  - reflexivity.
  - cbn [app train_loop]. rewrite bind_assoc.
    apply bind_ext; [reflexivity |]. intros f log1.
    rewrite bind_assoc. apply bind_ext; [reflexivity |]. intros predictions log2.
    rewrite bind_assoc. apply bind_ext; [reflexivity |]. intros a log3.
    rewrite bind_assoc. apply bind_ext; [reflexivity |]. intros _ log4.
    apply IH.
Qed.

(** A loop that returns, over models whose names are distinct and not yet
    in the dict, has appended one entry per model, in order, and logged
    the three events of each pass. *)
Lemma train_loop_records global p items :
  forall acc log log' acc',
    NoDup (map fst items) ->
    (forall name, In name (map fst items) -> ~ In name (PyDict.keys acc)) ->
    train_loop global p items acc log = (log', Ok acc') ->
    exists accs,
      length accs = length items /\
      acc' = acc ++ combine (map fst items) accs /\
      log' = log ++ flat_map pass_events (combine (map fst items) accs) /\
      Forall2 (model_accuracy global p) (map snd items) accs.
Proof.
  induction items as [| [name model] rest IH]; intros acc log log' acc' Hnd Hfresh H.
  - apply ret_Ok in H. destruct H as [-> ->]. exists [].
    cbn. rewrite !app_nil_r. repeat split; constructor.
  - cbn [train_loop] in H.
    invert_step H. apply call_fit_Ok in Hstep. destruct Hstep as [Hfit ->].
    invert_step H. apply call_predict_Ok in Hstep. destruct Hstep as [Hpred ->].
    invert_step H. apply lift_Ok in Hstep. destruct Hstep as [-> Hscore].
    invert_step H. apply emit_Ok in Hstep. subst.
    cbn [map fst] in Hnd, Hfresh. inversion Hnd as [| ? ? Hname Hnd']; subst.
    rewrite set_absent in H by (apply Hfresh; now left).
    apply IH in H; [| exact Hnd' |].
    + destruct H as (accs & Hlen & -> & -> & Hall).
      exists (a1 :: accs). cbn [length map fst snd combine flat_map pass_events].
      rewrite <- !app_assoc. cbn [app]. repeat split; auto.
      constructor; [| exact Hall]. exists a, a0. auto.
    + intros name' Hin. unfold PyDict.keys. rewrite map_app, in_app_iff.
      intros [Hacc | [Heq | []]].
      * apply (Hfresh name'); [now right | exact Hacc].
      * cbn in Heq. subst name'. contradiction.
Qed.

(** X4. A loop that starts from the empty dict over models of distinct
    names and returns has recorded exactly one accuracy per model, under
    the model's name and in the models' order; each is the accuracy of
    that model's pass; and the loop has logged, for each entry in turn, a
    successful fit, a successful prediction and the printed accuracy, and
    nothing else. *)
Theorem train_loop_records_each_model_once
  (global : rng) (p : Prepared) (items : list (string * estimator))
  (log log' : list event) (acc' : PyDict.dict Q) :
  NoDup (map fst items) ->
  train_loop global p items PyDict.empty log = (log', Ok acc') ->
  PyDict.keys acc' = map fst items /\
  log' = log ++ flat_map pass_events acc' /\
  Forall2 (fun model na => model_accuracy global p model (snd na))
    (map snd items) acc'.
Proof.
  intros Hnd H.
  apply train_loop_records in H; [| exact Hnd | intros name _ []].
  destruct H as (accs & Hlen & -> & -> & Hall).
  cbn [PyDict.empty app].
  assert (Hlen' : length (map fst items) = length accs)
    by (rewrite length_map; auto).
  repeat split.
  - unfold PyDict.keys. clear - Hlen'. revert accs Hlen'.
    induction (map fst items) as [| n ns IH]; intros [| a accs] H;
      try discriminate; cbn; [reflexivity |].
    f_equal. apply IH. cbn in H. lia.
  - clear - Hall Hlen'. revert accs Hall Hlen'.
    generalize (map snd items) as ms. generalize (map fst items) as ns.
    induction ns as [| n ns IH]; intros ms accs Hall Hlen.
    + destruct accs; [| discriminate]. inversion Hall; subst. constructor.
    + destruct accs as [| a accs]; [discriminate |].
      inversion Hall; subst. cbn. constructor; [assumption |].
      apply IH; [assumption | cbn in Hlen; lia].
Qed.

End LoopFacts.

Lemma train_loop_records_each_model_once_witness :
  exists log' acc',
    @train_loop (ToyLibrary false) 0%Z toy_prepared (PyDict.items models)
      PyDict.empty [] = (log', Ok acc') /\
    PyDict.keys acc' = model_names /\
    length log' = 9%nat.
Proof.
  assert (H : exists log' acc',
             @train_loop (ToyLibrary false) 0%Z toy_prepared (PyDict.items models)
               PyDict.empty [] = (log', Ok acc')).
  { eexists. eexists. vm_compute. reflexivity. }
  destruct H as (log' & acc' & H).
  destruct (@train_loop_records_each_model_once (ToyLibrary false) 0%Z
              toy_prepared (PyDict.items models) [] log' acc')
    as (Hkeys & Hlog & _).
  - repeat constructor; cbn; intuition discriminate.
  - exact H.
  - exists log', acc'. split; [exact H |]. split; [exact Hkeys |].
    rewrite Hlog. cbn [app].
    assert (Hlen : length acc' = 3%nat).
    { unfold PyDict.keys in Hkeys. rewrite <- (length_map fst), Hkeys. reflexivity. }
    destruct acc' as [| a1 [| a2 [| a3 [| a4 rest]]]]; try discriminate.
    reflexivity.
Defined.

(** ** A completed run *)

Lemma get_Some_In {V : Type} (d : PyDict.dict V) k v :
  PyDict.get d k = Some v -> In (k, v) d.
Proof.
  induction d as [| [k0 v0] d IH]; cbn; [discriminate |].
  destruct (String.eqb_spec k0 k).
  - intros H. inversion H; subst. now left.
  - intros H. right. now apply IH.
Qed.

Lemma Forall2_In_r {A B : Type} (R : A -> B -> Prop) l1 l2 y :
  Forall2 R l1 l2 -> In y l2 -> exists x, In x l1 /\ R x y.
Proof.
  induction 1 as [| x y' l1 l2 Hxy _ IH]; cbn; [contradiction |].
  intros [-> | Hin].
  - exists x. auto.
  - destruct (IH Hin) as (x' & Hx' & HR). exists x'. auto.
Qed.

Lemma model_names_NoDup : NoDup (map fst (PyDict.items models)).
Proof. repeat constructor; cbn; intuition discriminate. Qed.

Section CompletedRun.
Context {L : Sklearn}.

(** X5. Everything a completed run does, in order: the four reports of
    cell 3 on the loaded table; one fit of the scaler on the train part,
    its transform of the train part and of the test part, and the line of
    cell 5; for each of the three models in the order Random Forest,
    Logistic Regression, Support Vector Machine, a fit, a prediction and
    the printed accuracy that is recorded under its name; and last the
    line naming the best model with its accuracy. *)
Theorem completed_run_log
  (global : rng) (b : Bunch) (log : list event) (out : Outputs) :
  run global b = (log, Ok out) ->
  exists df,
    cell1_load b = Ok df /\
    PyDict.keys (accuracies out) = model_names /\
    log = eda_events df
          ++ prepare_events (prepared out)
          ++ flat_map pass_events (accuracies out)
          ++ [EvPrintBest (best_model_name out) (best_model_accuracy out)].
Proof.
  intros H. apply run_Ok in H.
  destruct H as (df & log3 & log5 & log7 & Hload & H3 & H5 & H7 & _ & ->).
  assert (Hlog3 : log3 = eda_events df).
  { apply cell3_eda_Ok in H3. now destruct H3 as [_ ->]. }
  apply cell5_prepare_Ok in H5.
  destruct H5 as (X & y & train & test & params & _ & _ & _ & _ & _ & _ & _ & _
                  & _ & _ & _ & _ & _ & ->).
  unfold cell7_train in H7.
  apply train_loop_records in H7;
    [| exact model_names_NoDup | intros name _ []].
  destruct H7 as (accs & Hlen & Hacc & -> & _).
  cbn [PyDict.empty app] in Hacc.
  exists df. split; [exact Hload |]. split.
  - rewrite Hacc.
    destruct accs as [| a1 [| a2 [| a3 [| a4 accs]]]]; try discriminate.
    reflexivity.
  - subst log3. rewrite Hacc, <- !app_assoc. reflexivity.
Qed.

(** The accuracy of a pass lies between 0 and 1 when the test labels are
    not empty. *)
Lemma model_accuracy_bounds global p model a labels :
  as_labels (y_test p) = Ok labels -> (0 < length labels)%nat ->
  model_accuracy global p model a -> (0 <= a <= 1)%Q.
Proof.
  intros Hlab Hpos (f & predictions & _ & _ & Hscore).
  unfold score_model in Hscore. rewrite Hlab in Hscore. cbn [rbind] in Hscore.
  apply accuracy_score_Ok in Hscore. destruct Hscore as (_ & -> & Hle).
  now apply fraction_in_unit_interval.
Qed.

(** X6. In a completed run the selected name is one of the three model
    names, the reported accuracy is the one recorded under it, no recorded
    accuracy exceeds it, and it lies between 0 and 1. *)
Theorem completed_run_best_model
  (global : rng) (b : Bunch) (log : list event) (out : Outputs) :
  run global b = (log, Ok out) ->
  In (best_model_name out) model_names /\
  PyDict.get (accuracies out) (best_model_name out)
    = Some (best_model_accuracy out) /\
  (forall name a,
      PyDict.get (accuracies out) name = Some a ->
      (a <= best_model_accuracy out)%Q) /\
  (0 <= best_model_accuracy out <= 1)%Q.
Proof.
  intros Hrun.
  destruct (run_test_labels _ _ _ _ Hrun) as (labels & Hlab & Hpos).
  apply run_Ok in Hrun.
  destruct Hrun as (df & log3 & log5 & log7 & _ & _ & _ & H7 & Hsel & _).
  unfold cell7_train in H7.
  apply train_loop_records in H7;
    [| exact model_names_NoDup | intros name _ []].
  destruct H7 as (accs & Hlen & Hacc & _ & Hall).
  cbn [PyDict.empty app] in Hacc.
  assert (Hkeys : PyDict.keys (accuracies out) = model_names).
  { rewrite Hacc.
    destruct accs as [| a1 [| a2 [| a3 [| a4 accs]]]]; try discriminate.
    reflexivity. }
  assert (Hnd : NoDup (PyDict.keys (accuracies out))).
  { rewrite Hkeys. exact model_names_NoDup. }
  destruct (select_best_nonempty (accuracies out) Hnd)
    as (pre & k & v & post & Hd & Hsel' & Hpre & Hpost).
  { intros Hnil. rewrite Hnil in Hkeys. discriminate. }
  rewrite Hsel' in Hsel. inversion Hsel; subst k v; clear Hsel.
  assert (Hin : In (best_model_name out, best_model_accuracy out) (accuracies out)).
  { rewrite Hd. apply in_or_app. right. now left. }
  split.
  { rewrite <- Hkeys. unfold PyDict.keys.
    apply (in_map fst) in Hin. exact Hin. }
  split; [now apply get_In |]. split.
  - intros name a Hget. apply get_Some_In in Hget. rewrite Hd in Hget.
    apply in_app_or in Hget. destruct Hget as [Hin1 | [Heq | Hin2]].
    + apply Qlt_le_weak.
      exact (proj1 (Forall_forall _ _) Hpre _ Hin1).
    + inversion Heq; subst. apply Qle_refl.
    + exact (proj1 (Forall_forall _ _) Hpost _ Hin2).
  - assert (Hin2 : In (best_model_accuracy out) accs).
    { rewrite Hacc in Hin. apply in_combine_r in Hin. exact Hin. }
    destruct (Forall2_In_r _ _ _ _ Hall Hin2) as (model & _ & Hm).
    exact (model_accuracy_bounds _ _ _ _ _ Hlab Hpos Hm).
Qed.

End CompletedRun.

Lemma completed_run_log_witness :
  exists log out,
    @run (ToyLibrary false) 0%Z toy_bunch = (log, Ok out) /\
    length log = 18%nat /\
    last log (EvPrint "")
    = EvPrintBest (best_model_name out) (best_model_accuracy out).
Proof.
  assert (Hrun : exists log out,
             @run (ToyLibrary false) 0%Z toy_bunch = (log, Ok out)).
  { eexists. eexists. vm_compute. reflexivity. }
  destruct Hrun as (log & out & Hrun).
  destruct (@completed_run_log (ToyLibrary false) 0%Z toy_bunch log out Hrun)
    as (df & _ & Hkeys & Hlog).
  exists log, out. split; [exact Hrun |].
  assert (Hlen : length (accuracies out) = 3%nat).
  { unfold PyDict.keys in Hkeys. rewrite <- (length_map fst), Hkeys. reflexivity. }
  destruct (accuracies out) as [| a1 [| a2 [| a3 [| a4 rest]]]]; try discriminate.
  rewrite Hlog. split; reflexivity.
Defined.

Lemma completed_run_best_model_witness :
  exists log out,
    @run (ToyLibrary false) 0%Z toy_bunch = (log, Ok out) /\
    In (best_model_name out) model_names /\
    (0 <= best_model_accuracy out <= 1)%Q.
Proof.
  assert (Hrun : exists log out,
             @run (ToyLibrary false) 0%Z toy_bunch = (log, Ok out)).
  { eexists. eexists. vm_compute. reflexivity. }
  destruct Hrun as (log & out & Hrun).
  destruct (@completed_run_best_model (ToyLibrary false) 0%Z toy_bunch log out Hrun)
    as (Hin & _ & _ & Hb).
  exists log, out. auto.
Defined.

(** ** When a run completes *)

Lemma get_app_absent {V : Type} (d1 d2 : PyDict.dict V) k :
  ~ In k (PyDict.keys d1) -> PyDict.get (d1 ++ d2) k = PyDict.get d2 k.
Proof.
  induction d1 as [| [k0 v0] d1 IH]; cbn; intros Hk; [reflexivity |].
  destruct (String.eqb_spec k0 k); [exfalso; auto |]. apply IH. tauto.
Qed.

Lemma df_n_rows_combine names (values : matrix) n :
  values <> [] -> length values = length names ->
  Forall (fun c => length c = n) values ->
  df_n_rows (combine names (map FloatSeries values)) = n.
Proof.
  intros Hne Hlen Hall.
  destruct values as [| c values]; [contradiction |].
  destruct names as [| name names]; [discriminate |].
  cbn. exact (Forall_inv Hall).
Qed.

(** Cell 5 reads from the table of a well-formed data set the feature
    table and the target column. *)
Lemma well_formed_X_y b n df :
  well_formed b n ->
  cell1_load b = Ok df ->
  let X := combine (feature_names b) (map FloatSeries (data b)) in
  df_drop df "target" = Ok X /\
  py_getitem df "target" = Ok (IntSeries (target b)) /\
  df_n_rows X = n /\ to_numpy X = data b.
Proof.
  intros Hwf Hload X.
  rewrite (cell1_load_well_formed b n Hwf) in Hload. inversion Hload; subst df.
  destruct Hwf as (Hlen & Hne & Hcols & Htarget & Hname).
  assert (Hkeys : PyDict.keys X = feature_names b)
    by (apply keys_combine; now rewrite length_map).
  assert (Hget : PyDict.get (X ++ [("target", IntSeries (target b))]) "target"
                 = Some (IntSeries (target b))).
  { rewrite get_app_absent by now rewrite Hkeys. reflexivity. }
  repeat split.
  - unfold df_drop, PyDict.mem. fold X. rewrite Hget.
    rewrite remove_app, remove_absent by now rewrite Hkeys.
    cbn. now rewrite app_nil_r.
  - unfold py_getitem. fold X. now rewrite Hget.
  - now apply df_n_rows_combine.
  - now apply to_numpy_combine.
Qed.

Lemma scale_columns_length ms ss (X : matrix) :
  length ms = length X -> length ss = length X ->
  length (scale_columns ms ss X) = length X.
Proof.
  revert ss X. induction ms as [| m ms IH]; intros [| s ss] [| c X] H1 H2;
    try discriminate; cbn; [reflexivity |].
  f_equal. apply IH; cbn in *; lia.
Qed.

Lemma scale_columns_rows ms ss (X : matrix) n :
  Forall (fun c => length c = n) X ->
  Forall (fun c => length c = n) (scale_columns ms ss X).
Proof.
  revert ss X. induction ms as [| m ms IH]; intros ss X Hall; [constructor |].
  destruct ss as [| s ss]; [constructor |].
  destruct X as [| c X]; [constructor |].
  inversion Hall; subst. cbn. constructor.
  - apply length_scale_column.
  - now apply IH.
Qed.

Lemma bind_Ok_intro {A B : Type} (c : M A) (k : A -> M B) log log1 a :
  c log = (log1, Ok a) -> bind c k log = k a log1.
Proof. unfold bind. now intros ->. Qed.

Lemma bind_Raise_intro {A B : Type} (c : M A) (k : A -> M B) log log1 e :
  c log = (log1, Raise e) -> bind c k log = (log1, Raise e).
Proof. unfold bind. now intros ->. Qed.

Section Completion.
Context {L : Sklearn}.



(** The table of a well-formed data set has distinct column names when
    the feature names are distinct. *)
Lemma well_formed_keys b n :
  well_formed b n ->
  PyDict.keys (combine (feature_names b) (map FloatSeries (data b))
               ++ [("target", IntSeries (target b))])
  = feature_names b ++ ["target"].
Proof.
  intros (Hlen & _).
  unfold PyDict.keys. rewrite map_app. fold (PyDict.keys (V := series)).
  f_equal. apply keys_combine. now rewrite length_map.
Qed.

Lemma well_formed_keys_NoDup b n :
  well_formed b n -> NoDup (feature_names b) ->
  NoDup (PyDict.keys (combine (feature_names b) (map FloatSeries (data b))
                      ++ [("target", IntSeries (target b))])).
Proof.
  intros Hwf Hnd. rewrite (well_formed_keys b n Hwf).
  destruct Hwf as (_ & _ & _ & _ & Hname).
  apply NoDup_app; [exact Hnd | repeat constructor; intros [] |].
  intros x Hx [<- | []]. contradiction.
Qed.




(** X8. On a well-formed data set of fewer than two rows the run does
    not complete, and it calls no scaler and no model: it stops in cell 3
    or at the split.  When the feature names differ from each other it
    stops at the split, which refuses an empty train part, after the
    reports of cell 3 have been made. *)
Theorem run_needs_two_rows (global : rng) (b : Bunch) (n : nat) :
  well_formed b n -> (n < 2)%nat ->
  exists log x,
    run global b = (log, Raise x) /\
    Forall (fun e => is_scaler_event e = false /\ is_model_event e = false) log /\
    (NoDup (feature_names b) ->
     exists df,
       cell1_load b = Ok df /\ log = eda_events df /\
       x = ValueError "the resulting train set will be empty").
Proof.
  intros Hwf Hn.
  pose proof (cell1_load_well_formed b n Hwf) as Hload.
  destruct (well_formed_X_y b n _ Hwf Hload) as (HX & Hy & Hrows & _).
  pose proof (well_formed_keys b n Hwf) as Hkeys.
  pose proof (well_formed_keys_NoDup b n Hwf) as Hnd.
  destruct Hwf as (_ & _ & _ & Htarget & Hname).
  set (df := combine (feature_names b) (map FloatSeries (data b))
             ++ [("target", IntSeries (target b))]) in *.
  destruct (has_duplicates (PyDict.keys df)) eqn:Edup.
  - assert (Hdup : ~ NoDup (PyDict.keys df)).
    { intros H. apply has_duplicates_NoDup in H. congruence. }
    destruct (cell3_eda_duplicates df [] Hdup) as [x H3]. cbn [app] in H3.
    exists [EvPrintMissing (PyDict.keys df); EvPrintDescribe (PyDict.keys df)], x.
    split; [| split].
    + unfold run, notebook.
      rewrite (bind_Ok_intro _ _ [] [] df) by (unfold lift; now rewrite Hload).
      now apply bind_Raise_intro.
    + repeat constructor.
    + intros H. elim Hdup. now apply Hnd.
  - apply has_duplicates_NoDup in Edup.
    exists (eda_events df),
      (ValueError "the resulting train set will be empty").
    split; [| split].
    + unfold run, notebook.
      rewrite (bind_Ok_intro _ _ [] [] df) by (unfold lift; now rewrite Hload).
      rewrite (bind_Ok_intro _ _ [] (eda_events df) tt)
        by exact (cell3_eda_NoDup df [] Edup).
      apply bind_Raise_intro.
      unfold cell5_prepare.
      rewrite (bind_Ok_intro _ _ _ _
                 (combine (feature_names b) (map FloatSeries (data b))))
        by (unfold lift; now rewrite HX).
      rewrite (bind_Ok_intro _ _ _ _ (IntSeries (target b)))
        by (unfold lift; now rewrite Hy).
      apply bind_Raise_intro. unfold lift. f_equal.
      unfold train_test_split. rewrite Hrows. cbn [series_length].
      rewrite Htarget, Nat.eqb_refl. cbn [negb].
      assert (Hcases : n = 0%nat \/ n = 1%nat) by lia.
      destruct Hcases as [-> | ->]; reflexivity.
    + repeat constructor.
    + intros _. exists df. auto.
Qed.

End Completion.


Lemma run_needs_two_rows_witness :
  exists log x,
    @run (ToyLibrary false) 0%Z one_row_bunch = (log, Raise x) /\
    Forall (fun e => is_scaler_event e = false /\ is_model_event e = false) log /\
    (NoDup (feature_names one_row_bunch) ->
     exists df,
       cell1_load one_row_bunch = Ok df /\ log = eda_events df /\
       x = ValueError "the resulting train set will be empty").
Proof.
  apply (@run_needs_two_rows (ToyLibrary false) 0%Z one_row_bunch 1).
  - unfold well_formed. cbn. repeat split; try reflexivity.
    + discriminate.
    + repeat constructor.
    + intros [H | []]. discriminate.
  - lia.
Defined.

(** ** Sizes and shapes *)

Section Shapes.
Context {L : Sklearn}.

(** X9. Whenever the split with [test_size=0.2] succeeds on [n] rows,
    the test part has a fifth of the rows, rounded up ([n <= 5 * n_test <
    n + 5]), the train part has the rest, there are at least two rows, and
    the train part is at least as large as the test part. *)
Theorem split_sizes_one_fifth
  (n : nat) (seed : option Z) (global : rng) (train test : list nat) :
  split_indices n (2 # 10) seed global = Ok (train, test) ->
  (n <= 5 * length test < n + 5)%nat /\
  (length train + length test = n)%nat /\
  (2 <= n)%nat /\
  (length test <= length train)%nat.
Proof.
  intros H. apply split_indices_Ok in H.
  destruct H as (_ & (Hsum & Htr & Hte) & Hc).
  set (x := ((2 # 10) * inject_Z (Z.of_nat n))%Q) in Hc.
  pose proof (Qle_ceiling x) as Hle. pose proof (Qceiling_lt x) as Hlt.
  set (c := Qceiling x) in *. clearbody c.
  unfold x, Qle, Qlt, Qmult, inject_Z in Hle, Hlt.
  cbn [Qnum Qden Pos.mul] in Hle, Hlt. clear x.
  lia.
Qed.

(** X11. The arrays a completed run hands to the models are
    rectangular and aligned with the labels: the scaled train part and the
    scaled test part have one column per feature, at least one; every
    column of the scaled train part has as many entries as there are train
    labels and every column of the scaled test part as many as there are
    test labels; and the train and test labels together are as many as the
    labels of the data set. *)
Theorem completed_run_shapes
  (global : rng) (b : Bunch) (log : list event) (out : Outputs) :
  run global b = (log, Ok out) ->
  let p := prepared out in
  (0 < length (X_train p))%nat /\
  length (X_train_scaled p) = length (X_train p) /\
  length (X_test_scaled p) = length (X_train p) /\
  Forall (fun c => length c = series_length (y_train p)) (X_train_scaled p) /\
  Forall (fun c => length c = series_length (y_test p)) (X_test_scaled p) /\
  (series_length (y_train p) + series_length (y_test p) = length (target b))%nat.
Proof.
  intros Hrun p. apply run_Ok in Hrun.
  destruct Hrun as (df & log3 & log5 & log7 & Hload & _ & H5 & _).
  apply cell5_prepare_Ok in H5. fold p in H5.
  destruct H5 as (X & y & train & test & params & _ & Hy & Hrows & Hi & HXtr & HXte
                  & Hytr & Hyte & Hfit & _ & Htr & Hte & Hcols & _).
  rewrite (cell1_load_target _ _ Hload) in Hy. inversion Hy; subst y; clear Hy.
  apply split_indices_Ok in Hi. destruct Hi as (_ & (Hsum & _ & _) & _).
  apply scaler_fit_Ok in Hfit. destruct Hfit as (Hm & _ & Hs & Hpos & _).
  assert (Hlen_tr : length (to_numpy (X_train p)) = length (X_train p))
    by (unfold to_numpy; apply length_map).
  assert (Hlen_te : length (to_numpy (X_test p)) = length (X_train p)).
  { rewrite Hcols, Hm, length_map. exact Hlen_tr. }
  repeat split.
  - lia.
  - rewrite Htr, scale_columns_length; rewrite ?Hm, ?Hs, ?length_map; auto.
  - rewrite Hte, scale_columns_length; rewrite ?Hm, ?Hs, ?length_map; lia.
  - rewrite Htr, Hytr, HXtr, series_take_length.
    apply scale_columns_rows, to_numpy_take_rows.
  - rewrite Hte, Hyte, HXte, series_take_length.
    apply scale_columns_rows, to_numpy_take_rows.
  - rewrite Hytr, Hyte, !series_take_length. cbn in Hrows. lia.
Qed.

End Shapes.

Lemma split_sizes_one_fifth_witness :
  exists train test,
    @split_indices (ToyLibrary false) 7 (2 # 10) (Some 42%Z) 0%Z = Ok (train, test) /\
    length test = 2%nat /\ length train = 5%nat.
Proof.
  eexists. eexists. split; [vm_compute; reflexivity |].
  pose proof (@split_sizes_one_fifth (ToyLibrary false) 7 (Some 42%Z) 0%Z
                [4; 3; 2; 1; 0]%nat [6; 5]%nat eq_refl) as H.
  cbn in H |- *. lia.
Defined.

Lemma completed_run_shapes_witness :
  exists log out,
    @run (ToyLibrary false) 0%Z toy_bunch = (log, Ok out) /\
    length (X_train_scaled (prepared out)) = 1%nat /\
    length (X_test_scaled (prepared out)) = 1%nat.
Proof.
  assert (Hrun : exists log out,
             @run (ToyLibrary false) 0%Z toy_bunch = (log, Ok out) /\
             length (X_train (prepared out)) = 1%nat).
  { eexists. eexists. split; [vm_compute; reflexivity | reflexivity]. }
  destruct Hrun as (log & out & Hrun & Hlen).
  destruct (@completed_run_shapes (ToyLibrary false) 0%Z toy_bunch log out Hrun)
    as (_ & H1 & H2 & _).
  exists log, out. rewrite H1, H2. auto.
Defined.

(** ** The scale *)

Lemma handle_zeros_positive v m n :
  (0 <= v)%R -> (0 < handle_zeros_in_scale v m n)%R.
Proof.
  intros Hv. unfold handle_zeros_in_scale.
  destruct (Rle_dec _ _) as [| Hb]; [lra |].
  destruct (Rlt_dec _ _); [lra |].
  apply sqrt_lt_R0.
  destruct (Req_dec_T v 0) as [E | E]; [| lra].
  elim Hb. rewrite E, Rmult_0_r, Rplus_0_l. apply Rle_0_sqr.
Qed.

Section Scale.
Context {L : Sklearn}.

(** X10. In a completed run the scaler holds, for every feature, a
    variance that is not negative and a scale that is strictly positive,
    whatever the data: the transform never divides by zero, and scaling
    keeps the order of any two values of a feature. *)
Theorem completed_run_scale_positive
  (global : rng) (b : Bunch) (log : list event) (out : Outputs) :
  run global b = (log, Ok out) ->
  exists params,
    scaler (prepared out) = Some params /\
    Forall (fun v => (0 <= v)%R) (var_ params) /\
    Forall (fun s => (0 < s)%R) (scale_ params) /\
    forall j m s x x',
      nth_error (mean_ params) j = Some m ->
      nth_error (scale_ params) j = Some s ->
      (x < x')%R -> ((x - m) / s < (x' - m) / s)%R.
Proof.
  intros Hrun. apply run_scaler in Hrun.
  destruct Hrun as (params & Hsc & Hfit & _).
  apply scaler_fit_Ok in Hfit. destruct Hfit as (_ & Hv & Hs & _).
  assert (Hpos : Forall (fun s => (0 < s)%R) (scale_ params)).
  { rewrite Hs. apply Forall_forall. intros s Hin.
    apply in_map_iff in Hin. destruct Hin as (c & <- & _).
    apply handle_zeros_positive, var_nonneg. }
  exists params. split; [exact Hsc |]. split; [| split; [exact Hpos |]].
  - rewrite Hv. apply Forall_forall. intros v Hin.
    apply in_map_iff in Hin. destruct Hin as (c & <- & _). apply var_nonneg.
  - intros j m s x x' _ Hsj Hx.
    apply nth_error_In in Hsj.
    pose proof (proj1 (Forall_forall _ _) Hpos s Hsj) as Hs0.
    apply Rmult_lt_compat_r; [now apply Rinv_0_lt_compat | lra].
Qed.

End Scale.

Lemma completed_run_scale_positive_witness :
  exists log out params,
    @run (ToyLibrary false) 0%Z const_bunch = (log, Ok out) /\
    scaler (prepared out) = Some params /\
    Forall (fun s => (0 < s)%R) (scale_ params).
Proof.
  assert (Hrun : exists log out,
             @run (ToyLibrary false) 0%Z const_bunch = (log, Ok out)).
  { eexists. eexists. vm_compute. reflexivity. }
  destruct Hrun as (log & out & Hrun).
  destruct (@completed_run_scale_positive (ToyLibrary false) 0%Z const_bunch
              log out Hrun) as (params & Hsc & _ & Hpos & _).
  exists log, out, params. auto.
Defined.

(** ** Extreme accuracies *)

Lemma count_true_score_all y_true y_pred :
  length y_true = length y_pred ->
  (count_true (score y_true y_pred) = length y_true <-> y_pred = y_true).
Proof.
  revert y_pred. induction y_true as [| t ts IH]; intros [| p ps] Hlen;
    try discriminate.
  - split; reflexivity.
  - cbn in Hlen. assert (Hlen' : length ts = length ps) by lia.
    specialize (IH ps Hlen').
    pose proof (count_true_le (score ts ps)) as Hle.
    rewrite (score_length _ _ Hlen') in Hle.
    unfold count_true, score in *. cbn [combine map filter fst snd length].
    destruct (Z.eqb_spec t p) as [-> | Hne]; cbn [length].
    + split.
      * intros H. f_equal. apply IH. lia.
      * intros H. inversion H; subst. f_equal. now apply IH.
    + split.
      * intros H. lia.
      * intros H. inversion H; subst. contradiction.
Qed.

Lemma count_true_score_none y_true y_pred :
  length y_true = length y_pred ->
  (count_true (score y_true y_pred) = 0%nat <->
   forall i, (i < length y_true)%nat -> nth i y_pred 0%Z <> nth i y_true 0%Z).
Proof.
  revert y_pred. induction y_true as [| t ts IH]; intros [| p ps] Hlen;
    try discriminate.
  - split; [intros _ i Hi; cbn in Hi; lia | reflexivity].
  - cbn in Hlen. assert (Hlen' : length ts = length ps) by lia.
    specialize (IH ps Hlen').
    unfold count_true, score in *. cbn [combine map filter fst snd length].
    destruct (Z.eqb_spec t p) as [-> | Hne]; cbn [length].
    + split; [discriminate |].
      intros H. exfalso. apply (H 0%nat); [lia | reflexivity].
    + split.
      * intros H [| i] Hi; cbn; [congruence |].
        apply IH; [exact H | lia].
      * intros H. apply IH. intros i Hi. apply (H (S i)). lia.
Qed.

(** X12. When [accuracy_score] returns on a non-empty test set, it
    returns exactly 1 if and only if every prediction equals its true
    label, and exactly 0 if and only if no prediction does. *)
Theorem accuracy_score_extremes (y_true y_pred : list Z) (a : Q) :
  accuracy_score y_true y_pred = Ok a ->
  y_true <> [] ->
  (a == 1 <-> y_pred = y_true)%Q /\
  (a == 0 <->
   forall i, (i < length y_true)%nat -> nth i y_pred 0%Z <> nth i y_true 0%Z)%Q.
Proof.
  unfold accuracy_score.
  destruct (Nat.eqb (length y_true) (length y_pred)) eqn:E; [| discriminate].
  apply Nat.eqb_eq in E. intros H Hne. inversion H; subst a; clear H.
  rewrite (score_length _ _ E).
  pose proof (count_true_score_all _ _ E) as Hall.
  pose proof (count_true_score_none _ _ E) as Hnone.
  assert (Hn : (0 < length y_true)%nat)
    by (destruct y_true; [contradiction | cbn; lia]).
  remember (count_true (score y_true y_pred)) as c eqn:Ec.
  remember (length y_true) as n eqn:En.
  assert (Hn0 : ~ (inject_Z (Z.of_nat n) == 0)%Q).
  { intros H0. change 0%Q with (inject_Z 0) in H0.
    apply (proj1 (inject_Z_injective _ _)) in H0. lia. }
  assert (Hiff : forall z : Z,
             (inject_Z (Z.of_nat c) / inject_Z (Z.of_nat n) == inject_Z z)%Q
             <-> Z.of_nat c = (z * Z.of_nat n)%Z).
  { intros z. split.
    - intros H1.
      apply inject_Z_injective. rewrite inject_Z_mult, <- H1.
      now rewrite Qmult_comm, Qmult_div_r.
    - intros H1. rewrite H1, inject_Z_mult. now apply Qdiv_mult_l. }
  split.
  - change 1%Q with (inject_Z 1). rewrite Hiff, <- Hall. lia.
  - change 0%Q with (inject_Z 0). rewrite Hiff, <- Hnone. lia.
Qed.

Lemma accuracy_score_extremes_witness :
  (accuracy_score [1; 0; 1]%Z [1; 0; 1]%Z = Ok (3 # 3)%Q) /\ (3 # 3 == 1)%Q.
Proof.
  split; [reflexivity |].
  apply (accuracy_score_extremes [1; 0; 1]%Z [1; 0; 1]%Z (3 # 3)%Q).
  - reflexivity.
  - discriminate.
  - reflexivity.
Defined.

(** ** The correlation matrix *)
Section Correlation.
Local Open Scope R_scope.

Lemma Rsum_quadratic {A : Type} (u v : A -> R) (l : list A) (t : R) :
  Rsum (map (fun a => (u a * t + v a) * (u a * t + v a)) l)
  = Rsum (map (fun a => u a * u a) l) * (t * t)
    + 2 * Rsum (map (fun a => u a * v a) l) * t
    + Rsum (map (fun a => v a * v a) l).
Proof.
  induction l as [| a l IH]; cbn; [ring |].
  fold (Rsum (map (fun a => (u a * t + v a) * (u a * t + v a)) l)).
  fold (Rsum (map (fun a => u a * u a) l)).
  fold (Rsum (map (fun a => u a * v a) l)).
  fold (Rsum (map (fun a => v a * v a) l)).
  rewrite IH. ring.
Qed.

(** The Cauchy-Schwarz inequality for sums over a list. *)
Lemma Rsum_cauchy_schwarz {A : Type} (u v : A -> R) (l : list A) :
  Rsum (map (fun a => u a * v a) l) * Rsum (map (fun a => u a * v a) l)
  <= Rsum (map (fun a => u a * u a) l) * Rsum (map (fun a => v a * v a) l).
Proof.
  set (Suu := Rsum (map (fun a => u a * u a) l)).
  set (Suv := Rsum (map (fun a => u a * v a) l)).
  set (Svv := Rsum (map (fun a => v a * v a) l)).
  assert (Hq : forall t, 0 <= Suu * (t * t) + 2 * Suv * t + Svv).
  { intros t. unfold Suu, Suv, Svv. rewrite <- Rsum_quadratic.
    apply (Rsum_nonneg (fun a => (u a * t + v a) * (u a * t + v a))).
    intros a. apply Rle_0_sqr. }
  assert (Huu : 0 <= Suu)
    by (apply (Rsum_nonneg (fun a => u a * u a)); intros a; apply Rle_0_sqr).
  destruct (Req_dec_T Suu 0) as [H0 | H0].
  - rewrite H0. rewrite Rmult_0_l.
    destruct (Req_dec_T Suv 0) as [Hc | Hc]; [rewrite Hc; lra |].
    exfalso. specialize (Hq (- (Svv + 1) / (2 * Suv))). rewrite H0 in Hq.
    replace (0 * (- (Svv + 1) / (2 * Suv) * (- (Svv + 1) / (2 * Suv)))
             + 2 * Suv * (- (Svv + 1) / (2 * Suv)) + Svv) with (-1) in Hq
      by (field; exact Hc).
    lra.
  - specialize (Hq (- Suv / Suu)).
    replace (Suu * (- Suv / Suu * (- Suv / Suu)) + 2 * Suv * (- Suv / Suu) + Svv)
      with ((Suu * Svv - Suv * Suv) / Suu) in Hq by (field; exact H0).
    assert (Hpos : 0 < Suu) by lra.
    assert (Hnum : 0 <= (Suu * Svv - Suv * Suv) / Suu * Suu)
      by (apply Rmult_le_pos; lra).
    replace ((Suu * Svv - Suv * Suv) / Suu * Suu) with (Suu * Svv - Suv * Suv)
      in Hnum by (field; exact H0).
    lra.
Qed.

Lemma Rsum_combine_fst (f : R -> R) (x y : column) :
  length x = length y ->
  Rsum (map (fun xy => f (fst xy)) (combine x y)) = Rsum (map f x).
Proof.
  revert y. induction x as [| a x IH]; intros [| b y] H; try discriminate;
    cbn; [reflexivity |].
  fold (Rsum (map (fun xy => f (fst xy)) (combine x y))). fold (Rsum (map f x)).
  rewrite IH; [reflexivity | cbn in H; lia].
Qed.

Lemma Rsum_combine_snd (f : R -> R) (x y : column) :
  length x = length y ->
  Rsum (map (fun xy => f (snd xy)) (combine x y)) = Rsum (map f y).
Proof.
  revert y. induction x as [| a x IH]; intros [| b y] H; try discriminate;
    cbn; [reflexivity |].
  fold (Rsum (map (fun xy => f (snd xy)) (combine x y))). fold (Rsum (map f y)).
  rewrite IH; [reflexivity | cbn in H; lia].
Qed.

Lemma covariance_sym (x y : column) : covariance x y = covariance y x.
Proof.
  unfold covariance, mean at 1 4. rewrite !length_map, !length_combine.
  rewrite (Nat.min_comm (length y)). f_equal.
  generalize (mean x) as mx. generalize (mean y) as my. intros my mx.
  revert y. induction x as [| a x IH]; intros [| b y]; cbn; try reflexivity.
  fold (Rsum (map (fun xy => (fst xy - mx) * (snd xy - my)) (combine x y))).
  fold (Rsum (map (fun xy => (fst xy - my) * (snd xy - mx)) (combine y x))).
  rewrite IH. ring.
Qed.

Lemma covariance_self (x : column) : covariance x x = var x.
Proof.
  unfold covariance, var, mean at 1 4. rewrite !length_map, length_combine.
  rewrite Nat.min_id. f_equal.
  generalize (mean x) as m. intros m.
  induction x as [| a x IH]; cbn; [reflexivity |].
  fold (Rsum (map (fun xy => (fst xy - m) * (snd xy - m)) (combine x x))).
  fold (Rsum (map (fun x0 => (x0 - m) * (x0 - m)) x)).
  now rewrite IH.
Qed.

(** The square of the covariance is at most the product of the variances. *)
Lemma covariance_bound (x y : column) :
  length x = length y ->
  covariance x y * covariance x y <= var x * var y.
Proof.
  intros Hlen. unfold covariance, var.
  set (mx := mean x). set (my := mean y). unfold mean.
  rewrite !length_map, length_combine, <- Hlen, Nat.min_id.
  pose proof (Rsum_cauchy_schwarz (fun xy : R * R => fst xy - mx)
                (fun xy => snd xy - my) (combine x y)) as Hcs.
  cbn beta in Hcs.
  rewrite (Rsum_combine_fst (fun a => (a - mx) * (a - mx)) x y Hlen) in Hcs.
  rewrite (Rsum_combine_snd (fun b => (b - my) * (b - my)) x y Hlen) in Hcs.
  set (Sxy := Rsum (map (fun xy => (fst xy - mx) * (snd xy - my)) (combine x y)))
    in *.
  set (Sxx := Rsum (map (fun a => (a - mx) * (a - mx)) x)) in *.
  set (Syy := Rsum (map (fun b => (b - my) * (b - my)) y)) in *.
  unfold Rdiv.
  replace (Sxy * / INR (length x) * (Sxy * / INR (length x)))
    with (Sxy * Sxy * (/ INR (length x) * / INR (length x))) by ring.
  replace (Sxx * / INR (length x) * (Syy * / INR (length x)))
    with (Sxx * Syy * (/ INR (length x) * / INR (length x))) by ring.
  apply Rmult_le_compat_r; [apply Rle_0_sqr | exact Hcs].
Qed.

Lemma pearson_sym (x y : column) : pearson x y = pearson y x.
Proof.
  unfold pearson. rewrite (Rmult_comm (var y)), (Rmult_comm (std y)).
  now rewrite covariance_sym.
Qed.

Lemma pearson_self (x : column) : var x <> 0 -> pearson x x = Some 1.
Proof.
  intros Hv. unfold pearson.
  destruct (Req_dec_T (var x * var x) 0) as [H0 | _].
  - apply Rmult_integral in H0. tauto.
  - rewrite covariance_self. unfold std.
    rewrite (sqrt_sqrt _ (var_nonneg x)). f_equal. now field.
Qed.

Lemma pearson_bound (x y : column) r :
  length x = length y -> pearson x y = Some r -> -1 <= r <= 1.
Proof.
  intros Hlen. unfold pearson.
  destruct (Req_dec_T (var x * var y) 0) as [| Hv]; [discriminate |].
  intros H. inversion H; subst r; clear H.
  pose proof (var_nonneg x) as Hx. pose proof (var_nonneg y) as Hy.
  pose proof (covariance_bound x y Hlen) as Hc.
  set (c := covariance x y) in *.
  set (d := std x * std y).
  assert (Hd2 : d * d = var x * var y).
  { unfold d, std.
    replace (sqrt (var x) * sqrt (var y) * (sqrt (var x) * sqrt (var y)))
      with (sqrt (var x) * sqrt (var x) * (sqrt (var y) * sqrt (var y))) by ring.
    now rewrite !sqrt_sqrt. }
  assert (Hd : 0 < d).
  { unfold d, std. apply Rmult_lt_0_compat; apply sqrt_lt_R0.
    - destruct (Req_dec_T (var x) 0) as [E | E]; [rewrite E in Hv; lra | lra].
    - destruct (Req_dec_T (var y) 0) as [E | E]; [rewrite E in Hv; lra | lra]. }
  rewrite <- Hd2 in Hc.
  assert (Hcd : - d <= c <= d) by nra.
  assert (Hinv : 0 < / d) by now apply Rinv_0_lt_compat.
  unfold Rdiv. split.
  - replace (-1) with (- d * / d) by (field; lra).
    apply Rmult_le_compat_r; lra.
  - replace 1 with (d * / d) by (field; lra).
    apply Rmult_le_compat_r; lra.
Qed.

Lemma entry_df_corr (df : DataFrame) i j a b :
  nth_error df i = Some a -> nth_error df j = Some b ->
  entry (df_corr df) i j
  = Some (pearson (series_to_float (snd a)) (series_to_float (snd b))).
Proof.
  intros Hi Hj. unfold entry, df_corr.
  rewrite (map_nth_error _ _ _ Hi).
  now rewrite (map_nth_error _ _ _ Hj).
Qed.

Lemma entry_df_corr_None (df : DataFrame) i j :
  nth_error df i = None \/ nth_error df j = None ->
  entry (df_corr df) i j = None.
Proof.
  intros H. unfold entry, df_corr.
  destruct (nth_error df i) as [a |] eqn:Hi.
  - rewrite (map_nth_error _ _ _ Hi).
    destruct H as [H | H]; [discriminate |].
    apply nth_error_None. rewrite length_map. now apply nth_error_None.
  - replace (nth_error (map _ df) i) with (@None (list (option R))); [reflexivity |].
    symmetry. apply nth_error_None. rewrite length_map. now apply nth_error_None.
Qed.

(** X13. The matrix under the heatmap, for a table whose columns all
    have the same number of rows: it has one row and one column per column
    of the table, the target included; it is symmetric; every coefficient
    that is defined lies between -1 and 1; and on the diagonal, the
    coefficient of every column that is not constant is 1. *)
Theorem heatmap_correlation_matrix (df : DataFrame) (n : nat) :
  Forall (fun kv => length (series_to_float (snd kv)) = n) df ->
  length (df_corr df) = length (cell3_heatmap df) /\
  Forall (fun row => length row = length (cell3_heatmap df)) (df_corr df) /\
  (forall i j, entry (df_corr df) i j = entry (df_corr df) j i) /\
  (forall i j r, entry (df_corr df) i j = Some (Some r) -> -1 <= r <= 1) /\
  (forall i name s,
      nth_error df i = Some (name, s) -> var (series_to_float s) <> 0 ->
      entry (df_corr df) i i = Some (Some 1)).
Proof.
  intros Hrows.
  assert (Hlen : length (cell3_heatmap df) = length df)
    by (unfold cell3_heatmap, PyDict.keys; apply length_map).
  split; [unfold df_corr; now rewrite length_map |]. split.
  { unfold df_corr. apply Forall_forall. intros row Hrow.
    apply in_map_iff in Hrow. destruct Hrow as (a & <- & _).
    now rewrite length_map. }
  split.
  { intros i j.
    destruct (nth_error df i) as [a |] eqn:Hi;
      destruct (nth_error df j) as [b |] eqn:Hj.
    - rewrite (entry_df_corr df i j a b Hi Hj), (entry_df_corr df j i b a Hj Hi).
      now rewrite pearson_sym.
    - now rewrite !entry_df_corr_None by auto.
    - now rewrite !entry_df_corr_None by auto.
    - now rewrite !entry_df_corr_None by auto. }
  split.
  { intros i j r H.
    destruct (nth_error df i) as [a |] eqn:Hi;
      [| rewrite entry_df_corr_None in H by auto; discriminate].
    destruct (nth_error df j) as [b |] eqn:Hj;
      [| rewrite entry_df_corr_None in H by auto; discriminate].
    rewrite (entry_df_corr df i j a b Hi Hj) in H. inversion H as [Hp].
    apply (pearson_bound _ _ r) in Hp; [exact Hp |].
    pose proof (proj1 (Forall_forall _ _) Hrows a (nth_error_In _ _ Hi)) as Ha.
    pose proof (proj1 (Forall_forall _ _) Hrows b (nth_error_In _ _ Hj)) as Hb.
    cbn beta in Ha, Hb. congruence. }
  intros i name s Hi Hv.
  rewrite (entry_df_corr df i i _ _ Hi Hi). cbn [snd].
  now rewrite pearson_self.
Qed.

End Correlation.

Lemma heatmap_correlation_matrix_witness :
  exists df,
    cell1_load toy_bunch = Ok df /\
    length (df_corr df) = 2%nat /\
    entry (df_corr df) 0 1 = entry (df_corr df) 1 0.
Proof.
  assert (Hload : exists df,
             cell1_load toy_bunch = Ok df /\
             Forall (fun kv => length (series_to_float (snd kv)) = 7%nat) df /\
             length (cell3_heatmap df) = 2%nat).
  { eexists. split; [vm_compute; reflexivity |].
    split; [repeat constructor | reflexivity]. }
  destruct Hload as (df & Hload & Hrows & Hlen).
  destruct (heatmap_correlation_matrix df 7 Hrows) as (H1 & _ & Hsym & _).
  exists df. split; [exact Hload |]. split; [congruence | apply Hsym].
Defined.

(** ** From the data to what the models see *)

Lemma to_numpy_take_combine idx names (values : matrix) :
  length values = length names ->
  to_numpy (df_take idx (combine names (map FloatSeries values)))
  = map (take 0%R idx) values.
Proof.
  unfold to_numpy, df_take. rewrite map_map. cbn [fst snd]. revert values.
  induction names as [| name names IH]; intros [| c values] H;
    try discriminate; cbn; [reflexivity |].
  f_equal. apply IH. cbn in H. lia.
Qed.

Section EndToEnd.
Context {L : Sklearn}.

(** X14. What a completed run on a well-formed data set hands to the
    models, in terms of the data: with [train] and [test] the row indices
    of the split, the train labels are the targets of the rows [train], in
    that order, and the test labels those of the rows [test]; and for
    every feature column [c] of the data, with [ctr] its values at the
    rows [train], the scaled train column is [ctr] and the scaled test
    column is [c] at the rows [test], both shifted by the mean of [ctr]
    and divided by the scale of [ctr].  So entry [k] of every scaled
    column and label [k] come from the same row of the data. *)
Theorem completed_run_from_data
  (global : rng) (b : Bunch) (n : nat) (log : list event) (out : Outputs) :
  run global b = (log, Ok out) ->
  well_formed b n ->
  exists train test,
    split_indices n (2 # 10) (Some 42%Z) global = Ok (train, test) /\
    y_train (prepared out) = IntSeries (take 0%Z train (target b)) /\
    y_test (prepared out) = IntSeries (take 0%Z test (target b)) /\
    forall j c,
      nth_error (data b) j = Some c ->
      let ctr := take 0%R train c in
      let m := mean ctr in
      let s := handle_zeros_in_scale (var ctr) (mean ctr) (length train) in
      nth_error (X_train_scaled (prepared out)) j
      = Some (map (fun i => ((nth i c 0 - m) / s)%R) train) /\
      nth_error (X_test_scaled (prepared out)) j
      = Some (map (fun i => ((nth i c 0 - m) / s)%R) test).
Proof.
  intros Hrun Hwf. apply run_Ok in Hrun.
  destruct Hrun as (df & log3 & log5 & log7 & Hload & _ & H5 & _).
  destruct (well_formed_X_y b n df Hwf Hload) as (HX0 & Hy0 & Hrows0 & _).
  destruct Hwf as (Hlen & Hne & _).
  apply cell5_prepare_Ok in H5.
  destruct H5 as (X & y & train & test & params & HX & Hy & _ & Hi & HXtr & HXte
                  & Hytr & Hyte & Hfit & _ & Htr & Hte & _).
  rewrite HX0 in HX. inversion HX; subst X; clear HX.
  rewrite Hy0 in Hy. inversion Hy; subst y; clear Hy.
  rewrite Hrows0 in Hi.
  exists train, test. split; [exact Hi |].
  split; [exact Hytr |]. split; [exact Hyte |].
  intros j c Hc ctr m s.
  rewrite HXtr, to_numpy_take_combine in Hfit, Htr by exact Hlen.
  rewrite HXte, to_numpy_take_combine in Hte by exact Hlen.
  apply scaler_fit_Ok in Hfit. destruct Hfit as (Hm & _ & Hs & _).
  assert (Hctr : nth_error (map (take 0%R train) (data b)) j = Some ctr)
    by now apply map_nth_error.
  assert (Hmj : nth_error (mean_ params) j = Some m)
    by (rewrite Hm; now apply map_nth_error).
  assert (Hrows : n_rows (map (take 0%R train) (data b)) = length train).
  { apply n_rows_Forall.
    - intros E. apply map_eq_nil in E. now apply Hne.
    - apply Forall_forall. intros c' Hc'. apply in_map_iff in Hc'.
      destruct Hc' as (c0 & <- & _). apply take_length. }
  assert (Hsj : nth_error (scale_ params) j = Some s).
  { rewrite Hs, Hrows.
    now apply (map_nth_error
                 (fun c => handle_zeros_in_scale (var c) (mean c) _)). }
  split.
  - rewrite Htr, (scale_columns_nth _ _ _ j m s ctr Hmj Hsj Hctr).
    unfold scale_column, ctr, take. now rewrite map_map.
  - rewrite Hte.
    rewrite (scale_columns_nth _ _ _ j m s (take 0%R test c) Hmj Hsj)
      by now apply map_nth_error.
    unfold scale_column, take. now rewrite map_map.
Qed.

(** X15. The loop stops at the first pass that fails.  When the loop over
    the models before a model has returned, then: if the fit of that model
    raises, the whole loop raises the same exception right after logging
    the failed fit; if its fit returns and its prediction raises, the loop
    raises that exception after logging the fit and the failed prediction;
    and if both return and the scoring raises, the loop raises that
    exception after logging both calls.  In each case nothing is recorded
    or logged for that model's accuracy or for any later model. *)
Theorem train_loop_stops_at_first_failure
  (global : rng) (p : Prepared)
  (before : list (string * estimator)) (name : string) (model : estimator)
  (after : list (string * estimator))
  (acc acc1 : PyDict.dict Q) (log log1 : list event) (x : exn) :
  train_loop global p before acc log = (log1, Ok acc1) ->
  let all := before ++ (name, model) :: after in
  let fit := model_fit model global (X_train_scaled p) (y_train p) in
  (fit = Raise x ->
   train_loop global p all acc log
   = (log1 ++ [EvModelFit name (Some x)], Raise x)) /\
  (forall f,
      fit = Ok f -> est_predict f (X_test_scaled p) = Raise x ->
      train_loop global p all acc log
      = (log1 ++ [EvModelFit name None; EvModelPredict name (Some x)], Raise x)) /\
  (forall f predictions,
      fit = Ok f -> est_predict f (X_test_scaled p) = Ok predictions ->
      score_model (y_test p) predictions = Raise x ->
      train_loop global p all acc log
      = (log1 ++ [EvModelFit name None; EvModelPredict name None], Raise x)).
Proof.
  revert acc log. induction before as [| [name0 model0] rest IH]; intros acc log H.
  - apply ret_Ok in H. destruct H as [-> ->]. cbn zeta. cbn [app train_loop].
    split; [| split].
    + intros Hfit. apply bind_Raise_intro. unfold call_fit. now rewrite Hfit.
    + intros f Hfit Hpred.
      rewrite (bind_Ok_intro _ _ _ (log ++ [EvModelFit name None]) f)
        by (unfold call_fit; now rewrite Hfit).
      apply bind_Raise_intro. unfold call_predict.
      rewrite Hpred, <- app_assoc. reflexivity.
    + intros f predictions Hfit Hpred Hscore.
      rewrite (bind_Ok_intro _ _ _ (log ++ [EvModelFit name None]) f)
        by (unfold call_fit; now rewrite Hfit).
      rewrite (bind_Ok_intro _ _ _
                 (log ++ [EvModelFit name None; EvModelPredict name None])
                 predictions)
        by (unfold call_predict; rewrite Hpred, <- app_assoc; reflexivity).
      apply bind_Raise_intro. unfold lift. now rewrite Hscore.
  - cbn [train_loop] in H.
    invert_step H. pose proof Hstep as Hfit0.
    apply call_fit_Ok in Hfit0. destruct Hfit0 as [_ ->].
    invert_step H. pose proof Hstep0 as Hpred0.
    apply call_predict_Ok in Hpred0. destruct Hpred0 as [_ ->].
    invert_step H. pose proof Hstep1 as Hscore0.
    apply lift_Ok in Hscore0. destruct Hscore0 as [-> _].
    invert_step H. pose proof Hstep2 as Hemit.
    apply emit_Ok in Hemit. subst.
    specialize (IH _ _ H). cbn zeta in IH |- *.
    cbn [app train_loop].
    rewrite (bind_Ok_intro _ _ _ _ _ Hstep).
    rewrite (bind_Ok_intro _ _ _ _ _ Hstep0).
    rewrite (bind_Ok_intro _ _ _ _ _ Hstep1).
    rewrite (bind_Ok_intro _ _ _ _ _ Hstep2).
    exact IH.
Qed.

End EndToEnd.

Lemma completed_run_from_data_witness :
  exists log out,
    @run (ToyLibrary false) 0%Z toy_bunch = (log, Ok out) /\
    y_train (prepared out) = IntSeries [1; 1; 0; 1; 0]%Z /\
    y_test (prepared out) = IntSeries [1; 0]%Z.
Proof.
  assert (Hrun : exists log out,
             @run (ToyLibrary false) 0%Z toy_bunch = (log, Ok out)).
  { eexists. eexists. vm_compute. reflexivity. }
  destruct Hrun as (log & out & Hrun).
  destruct (@completed_run_from_data (ToyLibrary false) 0%Z toy_bunch 7 log out Hrun)
    as (train & test & Hi & Hytr & Hyte & _).
  - unfold well_formed. cbn. repeat split; try reflexivity.
    + discriminate.
    + repeat constructor.
    + intros [H | []]. discriminate.
  - exists log, out. split; [exact Hrun |].
    vm_compute in Hi. inversion Hi; subst train test.
    split; [exact Hytr | exact Hyte].
Defined.

Lemma train_loop_stops_at_first_failure_witness :
  @train_loop (ToyLibrary true) 0%Z toy_prepared (PyDict.items models)
    PyDict.empty []
  = ([EvModelFit RF_name None; EvModelPredict RF_name None;
      EvPrintAccuracy RF_name (inject_Z 1 / inject_Z 1)%Q;
      EvModelFit LR_name (Some (ValueError "Input X contains NaN"))],
     Raise (ValueError "Input X contains NaN")).
Proof.
  apply (@train_loop_stops_at_first_failure (ToyLibrary true) 0%Z toy_prepared
           [(RF_name, {| est_class := RandomForestClassifier;
                         est_kwargs := [("random_state", 42%Z)] |})]
           LR_name
           {| est_class := LogisticRegression;
              est_kwargs := [("max_iter", 1000%Z); ("random_state", 42%Z)] |}
           [(SVM_name, {| est_class := SVC;
                          est_kwargs := [("random_state", 42%Z)] |})]
           PyDict.empty
           [(RF_name, (inject_Z 1 / inject_Z 1)%Q)]
           []
           [EvModelFit RF_name None; EvModelPredict RF_name None;
            EvPrintAccuracy RF_name (inject_Z 1 / inject_Z 1)%Q]
           (ValueError "Input X contains NaN")).
  - reflexivity.
  - reflexivity.
Defined.

(** ** The loaded table *)

(** X16. The table loaded from a well-formed data set of [n] rows has the
    feature columns, in the order of the feature names, followed by the
    column [target] as its last column, one column more than there are
    features; every column has [n] rows; and the correlation matrix under
    the heatmap is labelled by these columns. *)
Theorem loaded_table_columns (b : Bunch) (n : nat) :
  well_formed b n ->
  exists df,
    cell1_load b = Ok df /\
    PyDict.keys df = feature_names b ++ ["target"] /\
    cell3_heatmap df = feature_names b ++ ["target"] /\
    length df = S (length (feature_names b)) /\
    last (PyDict.keys df) "" = "target" /\
    Forall (fun kv => series_length (snd kv) = n) df /\
    Forall (fun kv => length (series_to_float (snd kv)) = n) df.
Proof.
  intros Hwf. pose proof (cell1_load_well_formed b n Hwf) as Hload.
  destruct Hwf as (Hlen & Hne & Hcols & Htarget & Hname).
  eexists. split; [exact Hload |].
  assert (Hkeys : PyDict.keys (combine (feature_names b) (map FloatSeries (data b))
                               ++ [("target", IntSeries (target b))])
                  = feature_names b ++ ["target"]).
  { unfold PyDict.keys. rewrite map_app. cbn [map fst]. f_equal.
    apply keys_combine. now rewrite length_map. }
  assert (Hfeat : forall kv,
             In kv (combine (feature_names b) (map FloatSeries (data b))) ->
             exists c, snd kv = FloatSeries c /\ length c = n).
  { intros [name s] Hin. apply in_combine_r in Hin.
    apply in_map_iff in Hin. destruct Hin as (c & <- & Hc).
    exists c. split; [reflexivity |].
    exact (proj1 (Forall_forall _ _) Hcols c Hc). }
  split; [exact Hkeys |]. split; [exact Hkeys |]. split.
  { rewrite length_app, length_combine, length_map. cbn [length].
    change (@length (list R) (data b)) with (@length column (data b)).
    rewrite Hlen, Nat.min_id. lia. }
  split; [rewrite Hkeys; apply last_last |].
  split; apply Forall_app; split;
    try (repeat constructor; cbn; rewrite ?length_map; exact Htarget);
    apply Forall_forall; intros kv Hin;
    destruct (Hfeat kv Hin) as (c & -> & Hc); exact Hc.
Qed.

Lemma loaded_table_columns_witness :
  exists df,
    cell1_load wide_bunch = Ok df /\
    length df = 31%nat /\
    last (PyDict.keys df) "" = "target".
Proof.
  destruct (loaded_table_columns wide_bunch 3) as (df & Hload & _ & _ & Hlen & Hlast & _).
  - unfold well_formed. cbn -[In]. repeat split; try reflexivity.
    + discriminate.
    + repeat constructor.
    + cbn. intuition discriminate.
  - exists df. auto.
Defined.
